(** * InForce ROI calculator

    A shallow embedding of the two scripts of the calculator:

    - [js/calculator.js]: the object returned by [calculator()], whose getters
      implement the Productivity Value Gap cost model;
    - [js/chart.js]: [generateProductivityCurve] and the three curves drawn
      from it.

    Numbers.  A JavaScript number is modelled by [Number]: an exact rational,
    one of the two infinities, or NaN.  Arithmetic follows IEEE 754 on the
    special values (NaN is absorbing, [Infinity - Infinity] and
    [0 * Infinity] are NaN, a non-zero number divided by zero is an
    infinity) and is exact on finite values: the rounding of binary64 and
    overflow are outside the model, and the two zeros are one.  The theorems
    are stated with this in mind.  Orders are stated as [<=], which rounding
    preserves; a strict order between the figures of two hourly rates, or an
    equality of computed figures, is stated for whole-dollar rates up to 10^9
    and at most 10,000 events, where
    every product and sum is an integer below 2^53 and binary64 computes it
    exactly; and a result that an overflow would turn into Infinity or NaN is
    stated under the hypothesis that the total concerned is finite.

    Values.  A property read produces a [value]: [undefined], a number, or
    one of the built-in objects every object literal inherits from
    [Object.prototype]. *)

From Stdlib Require Import ZArith QArith Qabs Qcanon Qround Lia Lqa List.
From stdpp Require Import base strings gmap.
Import ListNotations.

(** ** The fragment of JavaScript the scripts use *)

Module JS.

Inductive Number : Type :=
| NaN
| Infinity (negative : bool)
| Fin (q : Qc).

(** A numeric literal of the source, read as the rational it denotes. *)
Definition num (q : Q) : Number := Fin (Q2Qc q).

(** The loop counter of a [for] statement, as a number. *)
Definition of_Z (z : Z) : Number := Fin (Q2Qc (inject_Z z)).

Definition is_zero (q : Qc) : bool := Qeq_bool q 0.
Definition is_neg (q : Qc) : bool := negb (Qle_bool 0 q).

Definition neg (x : Number) : Number :=
  match x with
  | NaN => NaN
  | Infinity s => Infinity (negb s)
  | Fin a => Fin (- a)%Qc
  end.

Definition add (x y : Number) : Number :=
  match x, y with
  | NaN, _ | _, NaN => NaN
  | Infinity s, Infinity t => if Bool.eqb s t then Infinity s else NaN
  | Infinity s, Fin _ | Fin _, Infinity s => Infinity s
  | Fin a, Fin b => Fin (a + b)%Qc
  end.

Definition sub (x y : Number) : Number := add x (neg y).

Definition mul (x y : Number) : Number :=
  match x, y with
  | NaN, _ | _, NaN => NaN
  | Infinity s, Infinity t => Infinity (xorb s t)
  | Infinity s, Fin b | Fin b, Infinity s =>
      if is_zero b then NaN else Infinity (xorb s (is_neg b))
  | Fin a, Fin b => Fin (a * b)%Qc
  end.

Definition div (x y : Number) : Number :=
  match x, y with
  | NaN, _ | _, NaN => NaN
  | Infinity _, Infinity _ => NaN
  | Infinity s, Fin b => Infinity (xorb s (is_neg b))
  | Fin _, Infinity _ => Fin 0%Qc
  | Fin a, Fin b =>
      if is_zero b
      then (if is_zero a then NaN else Infinity (is_neg a))
      else Fin (a / b)%Qc
  end.

(** [x === y] on numbers: NaN equals nothing, itself included. *)
Definition strict_equals (x y : Number) : bool :=
  match x, y with
  | Fin a, Fin b => Qeq_bool a b
  | Infinity s, Infinity t => Bool.eqb s t
  | _, _ => false
  end.

(** [x <= y] and [x < y] on numbers: false as soon as one side is NaN. *)
Definition leb (x y : Number) : bool :=
  match x, y with
  | NaN, _ | _, NaN => false
  | Infinity true, _ => true
  | _, Infinity false => true
  | Infinity false, _ => false
  | _, Infinity true => false
  | Fin a, Fin b => Qle_bool a b
  end.

Definition ltb (x y : Number) : bool :=
  match x, y with
  | NaN, _ | _, NaN => false
  | _, _ => negb (leb y x)
  end.

(** [Math.round]: the nearest integer, a tie going to the integer closer
    to +Infinity; NaN and the infinities are returned as they are. *)
Definition Math_round (x : Number) : Number :=
  match x with
  | Fin a => of_Z (Qfloor (a + Q2Qc (1 # 2))%Qc)
  | _ => x
  end.

(** [Math.min] of two arguments: NaN if either is NaN. *)
Definition Math_min (x y : Number) : Number :=
  match x, y with
  | NaN, _ | _, NaN => NaN
  | _, _ => if leb x y then x else y
  end.

(** [Number.isFinite] *)
Definition isFinite (x : Number) : bool :=
  match x with
  | Fin _ => true
  | _ => false
  end.

(** [Number.isNaN] *)
Definition isNaN (x : Number) : bool :=
  match x with
  | NaN => true
  | _ => false
  end.

(** What a property read can produce in these scripts. *)
Inductive value : Type :=
| undefined
| number (x : Number)
| builtin (name : string).

(** The properties every ordinary object inherits: the members of
    [Object.prototype], each a built-in function or object. *)
Definition Object_prototype : gmap string value :=
  list_to_map
    [ ("constructor", builtin "Object");
      ("hasOwnProperty", builtin "Object.prototype.hasOwnProperty");
      ("isPrototypeOf", builtin "Object.prototype.isPrototypeOf");
      ("propertyIsEnumerable", builtin "Object.prototype.propertyIsEnumerable");
      ("toLocaleString", builtin "Object.prototype.toLocaleString");
      ("toString", builtin "Object.prototype.toString");
      ("valueOf", builtin "Object.prototype.valueOf");
      ("__proto__", builtin "Object.prototype");
      ("__defineGetter__", builtin "Object.prototype.__defineGetter__");
      ("__defineSetter__", builtin "Object.prototype.__defineSetter__");
      ("__lookupGetter__", builtin "Object.prototype.__lookupGetter__");
      ("__lookupSetter__", builtin "Object.prototype.__lookupSetter__") ].

(** [o[key]] on an object literal [o]: the own property if there is one,
    else the inherited one, else [undefined].  The read never throws. *)
Definition Get (o : gmap string value) (key : string) : value :=
  match o !! key with
  | Some v => v
  | None =>
      match Object_prototype !! key with
      | Some v => v
      | None => undefined
      end
  end.

(** The conversion applied to an operand of [/] and [*].  The built-in
    objects convert through their string form ("function ..." or
    "[object Object]"), which is not a numeric literal. *)
Definition ToNumber (v : value) : Number :=
  match v with
  | undefined => NaN
  | number x => x
  | builtin _ => NaN
  end.

(** How the evaluation of an expression ends: with a value, or with a
    thrown error of a given name. *)
Inductive completion (A : Type) : Type :=
| Normal (a : A)
| Throw (name : string).
Arguments Normal {A} a.
Arguments Throw {A} name.

End JS.

Declare Scope js_scope.
Delimit Scope js_scope with js.
Bind Scope js_scope with JS.Number.
Infix "+" := JS.add : js_scope.
Infix "-" := JS.sub : js_scope.
Infix "*" := JS.mul : js_scope.
Infix "/" := JS.div : js_scope.
Notation "x === y" := (JS.strict_equals x y) (at level 70, no associativity) : js_scope.

(** ** js/calculator.js *)

Module Calculator.
Import JS.
Local Open Scope js_scope.

(** The data properties of the object [calculator()] returns: the four
    inputs the sliders write, and the static assumptions. *)
Record calc : Type := {
  hourlyRate : Number;
  teamSize : Number;
  projectDuration : Number;
  experienceLevel : string;
  inForceTurnover : Number;
  competitorTurnover : Number;
  vacancyWeeks : Number;
  vacancyPayment : Number;
  onboardingDays : Number;
  onboardingPayment : Number;
  rampUpTimelines : gmap string value
}.

Definition calculator : calc := {|
  hourlyRate := num 200;
  teamSize := num 12;
  projectDuration := num 18;
  experienceLevel := "mixed";
  inForceTurnover := num 0.05;
  competitorTurnover := num 0.30;
  vacancyWeeks := num 2;
  vacancyPayment := num 1.0;
  onboardingDays := num 5;
  onboardingPayment := num 1.0;
  rampUpTimelines :=
    list_to_map [ ("junior", number (num 60));
                  ("mixed", number (num 45));
                  ("senior", number (num 30)) ]
|}.

(** The object after the page has written the four inputs; the static
    assumptions are the ones of the object literal. *)
Definition with_inputs (h t d : Number) (level : string) : calc := {|
  hourlyRate := h;
  teamSize := t;
  projectDuration := d;
  experienceLevel := level;
  inForceTurnover := inForceTurnover calculator;
  competitorTurnover := competitorTurnover calculator;
  vacancyWeeks := vacancyWeeks calculator;
  vacancyPayment := vacancyPayment calculator;
  onboardingDays := onboardingDays calculator;
  onboardingPayment := onboardingPayment calculator;
  rampUpTimelines := rampUpTimelines calculator
|}.

Definition hoursPerWeek (this : calc) : Number := num 40.

Definition weeksPerYear (this : calc) : Number := num 52.

Definition projectWeeks (this : calc) : Number := projectDuration this.

Definition rampUpDays (this : calc) : value :=
  Get (rampUpTimelines this) (experienceLevel this).

Definition competitorTurnoverEvents (this : calc) : Number :=
  let annualEvents := competitorTurnover this * teamSize this in
  let projectEvents := annualEvents * (projectDuration this / num 12) in
  Math_round projectEvents.

Definition inforceTurnoverEvents (this : calc) : Number :=
  let annualEvents := inForceTurnover this * teamSize this in
  let projectEvents := annualEvents * (projectDuration this / num 12) in
  Math_round projectEvents.

Definition idleTimeCost (this : calc) : Number :=
  let hours := vacancyWeeks this * hoursPerWeek this in
  let cost := hours * hourlyRate this * vacancyPayment this in
  cost.

Definition onboardingCost (this : calc) : Number :=
  let hours := (onboardingDays this / num 5) * hoursPerWeek this in
  let cost := hours * hourlyRate this * onboardingPayment this in
  cost.

Definition rampUpCost (this : calc) : Number :=
  let rampUpWeeks := ToNumber (rampUpDays this) / num 5 in
  let hours := rampUpWeeks * hoursPerWeek this in
  let averageProductivity := num 0.5 in
  let productivityGap := num 1 - averageProductivity in
  let cost := hours * hourlyRate this * productivityGap in
  cost.

Definition costPerEvent (this : calc) : Number :=
  idleTimeCost this + onboardingCost this + rampUpCost this.

Definition competitorTotal (this : calc) : Number :=
  competitorTurnoverEvents this * costPerEvent this.

Definition inforceTotal (this : calc) : Number :=
  inforceTurnoverEvents this * costPerEvent this.

Definition savings (this : calc) : Number :=
  competitorTotal this - inforceTotal this.

Definition savingsPercentage (this : calc) : Number :=
  if competitorTotal this === num 0 then num 0
  else (savings this / competitorTotal this) * num 100.

Definition competitorEvents (this : calc) : Number :=
  competitorTurnoverEvents this.

Definition inforceEvents (this : calc) : Number :=
  inforceTurnoverEvents this.

Definition competitorIdleCost (this : calc) : Number :=
  competitorTurnoverEvents this * idleTimeCost this.

Definition inforceIdleCost (this : calc) : Number :=
  inforceTurnoverEvents this * idleTimeCost this.

Definition competitorOnboardingCost (this : calc) : Number :=
  competitorTurnoverEvents this * onboardingCost this.

Definition inforceOnboardingCost (this : calc) : Number :=
  inforceTurnoverEvents this * onboardingCost this.

Definition competitorRampCost (this : calc) : Number :=
  competitorTurnoverEvents this * rampUpCost this.

Definition inforceRampCost (this : calc) : Number :=
  inforceTurnoverEvents this * rampUpCost this.

Definition projectBudget (this : calc) : Number :=
  let weeks := projectDuration this * num 4.33 in
  let totalHours := teamSize this * hoursPerWeek this * weeks in
  totalHours * hourlyRate this.

(** The numeric getters of the object, by name. *)
Definition numeric_getters : list (string * (calc -> Number)) :=
  [ ("hoursPerWeek", hoursPerWeek); ("weeksPerYear", weeksPerYear);
    ("projectWeeks", projectWeeks);
    ("competitorTurnoverEvents", competitorTurnoverEvents);
    ("inforceTurnoverEvents", inforceTurnoverEvents);
    ("costPerEvent", costPerEvent); ("idleTimeCost", idleTimeCost);
    ("onboardingCost", onboardingCost); ("rampUpCost", rampUpCost);
    ("competitorTotal", competitorTotal); ("inforceTotal", inforceTotal);
    ("savings", savings); ("savingsPercentage", savingsPercentage);
    ("competitorEvents", competitorEvents); ("inforceEvents", inforceEvents);
    ("competitorIdleCost", competitorIdleCost);
    ("inforceIdleCost", inforceIdleCost);
    ("competitorOnboardingCost", competitorOnboardingCost);
    ("inforceOnboardingCost", inforceOnboardingCost);
    ("competitorRampCost", competitorRampCost);
    ("inforceRampCost", inforceRampCost);
    ("projectBudget", projectBudget) ].

(** Evaluating [this.getter].  No getter contains a [throw], and every
    operation a getter performs (a property read on an object literal,
    arithmetic, [Math.round], [===]) completes normally on every operand:
    the evaluation completes normally with the value the getter returns. *)
Definition evaluate {A : Type} (getter : calc -> A) (this : calc) : completion A :=
  Normal (getter this).

(** The keys of [rampUpTimelines]. *)
Definition valid_level (level : string) : Prop :=
  level = "junior" \/ level = "mixed" \/ level = "senior".

End Calculator.

(** ** js/chart.js *)

Module Chart.
Import JS.
Local Open Scope js_scope.

(** [curve.push(x)] *)
Definition push (curve : list Number) (x : Number) : list Number :=
  curve ++ [x].

(** The [for (let week = 0; week <= 12; week++)] loop, entered at [week]
    with the array built so far; [fuel] bounds the number of iterations. *)
Fixpoint for_week (fuel : nat) (rampUpWeeks : Number) (week : Z)
    (curve : list Number) : list Number :=
  match fuel with
  | O => curve
  | S fuel' =>
      if (week <=? 12)%Z then
        let curve' :=
          if (week <? 2)%Z then push curve (num 0)
          else if (week <? 3)%Z then push curve (num 0)
          else
            let weeksIntoRampUp := of_Z week - num 3 in
            let productivity :=
              Math_min (num 100) ((weeksIntoRampUp / rampUpWeeks) * num 100) in
            push curve productivity in
        for_week fuel' rampUpWeeks (week + 1)%Z curve'
      else curve
  end.

Definition generateProductivityCurve (rampUpWeeks : Number) : list Number :=
  for_week 14 rampUpWeeks 0%Z [].

Definition seniorCurve : list Number := generateProductivityCurve (num 6).
Definition mixedCurve : list Number := generateProductivityCurve (num 9).
Definition juniorCurve : list Number := generateProductivityCurve (num 12).

End Chart.

(** ** Notions used to state the documented behaviour *)

Module Documented.
Import JS Calculator Chart.
Local Open Scope js_scope.

(** [x] is a finite number at most [tolerance] away from [target]. *)
Definition within (tolerance : Q) (x : Number) (target : Q) : Prop :=
  exists q : Qc, x = Fin q /\ (Qabs (q - target) <= tolerance)%Q.

(** The scenario of the README's example calculation. *)
Definition example_inputs : calc :=
  with_inputs (num 200) (num 12) (num 18) "mixed".

(** The figures the README gives for it: 5 and 1 events, $332,000,
    $66,400, $265,600 and 80.0%.  Amounts are compared to the nearest
    hundred dollars, percentages to one decimal. *)
Definition example_figures (this : calc) : Prop :=
  competitorTurnoverEvents this = num 5 /\
  inforceTurnoverEvents this = num 1 /\
  within 100 (competitorTotal this) 332000 /\
  within 100 (inforceTotal this) 66400 /\
  within 100 (savings this) 265600 /\
  within 0.05 (savingsPercentage this) 80.

(** A team of 5 on a 6-month project at the mixed level, at a given
    hourly rate. *)
Definition small_team (rate : Q) : calc :=
  with_inputs (num rate) (num 5) (num 6) "mixed".

(** The ramp of the curve at [week]: linear in the weeks past the third,
    clamped at 100. *)
Definition ramp (rampUpWeeks : Number) (week : Z) : Number :=
  Math_min (num 100) (((of_Z week - num 3) / rampUpWeeks) * num 100).

(** A curve that is at 100% at some week of the timeline. *)
Definition reaches_full (curve : list Number) : Prop :=
  exists week : nat, (week <= 12)%nat /\ curve !! week = Some (num 100).

End Documented.

(** ** The label tables of the two scripts *)

Module LevelLabels.
Import JS Calculator.

(** What [labels[this.experienceLevel]] can be: one of the label strings of
    the table, or whatever a read of a key the table does not own yields. *)
Inductive label_value : Type :=
| text (s : string)
| not_own (v : value).

(** The [labels] object of the getter [experienceLevelLabel]. *)
Definition labels : gmap string string :=
  list_to_map [ ("junior", "Junior Developers");
                ("mixed", "Mixed Experience");
                ("senior", "Senior Developers") ].

Definition experienceLevelLabel (this : calc) : label_value :=
  match labels !! experienceLevel this with
  | Some s => text s
  | None => not_own (Get ∅ (experienceLevel this))
  end.

End LevelLabels.

Module ChartData.
Import JS.

(** [Array.from({ length: n }, (_, i) => mapFn(i))] *)
Definition Array_from {A : Type} (length : nat) (mapFn : nat -> A) : list A :=
  map mapFn (seq 0 length).

(** The x axis of the chart: [Array.from({ length: 13 }, (_, i) => i)]. *)
Definition labels : list Number :=
  Array_from 13 (fun i => of_Z (Z.of_nat i)).

End ChartData.

(** ** Arithmetic of the number model *)

Module NumberFacts.
Import JS.

(** Goals and hypotheses on canonical rationals, restated on [Q]. *)
Ltac to_Q :=
  unfold Qcle, Qclt, Qcdiv, Qcminus, Qcinv, Qcopp, Qcmult, Qcplus, Q2Qc;
  cbn [this];
  repeat setoid_rewrite Qred_correct.

Ltac to_Q_in H :=
  unfold Qcle, Qclt, Qcdiv, Qcminus, Qcinv, Qcopp, Qcmult, Qcplus, Q2Qc in H;
  cbn [this] in H;
  repeat setoid_rewrite Qred_correct in H.

Ltac Qc_eq := apply Qc_is_canon; to_Q.

Lemma Fin_eq (a b : Qc) : (a == b)%Q -> Fin a = Fin b.
Proof. intros E. f_equal. now apply Qc_is_canon. Qed.

Lemma num_eq (p q : Q) : (p == q)%Q -> num p = num q.
Proof. intros E. unfold num. f_equal. now apply Q2Qc_eq_iff. Qed.

Lemma mul_Fin (a b : Qc) : (Fin a * Fin b)%js = Fin (a * b)%Qc.
Proof. reflexivity. Qed.

Lemma add_Fin (a b : Qc) : (Fin a + Fin b)%js = Fin (a + b)%Qc.
Proof. reflexivity. Qed.

Lemma sub_Fin (a b : Qc) : (Fin a - Fin b)%js = Fin (a - b)%Qc.
Proof. reflexivity. Qed.

Lemma div_Fin (a b : Qc) :
  is_zero b = false -> (Fin a / Fin b)%js = Fin (a / b)%Qc.
Proof. intros E. cbn [div]. now rewrite E. Qed.

Lemma is_zero_true (q : Qc) : is_zero q = true <-> q = 0%Qc.
Proof.
  unfold is_zero. rewrite Qeq_bool_iff. split.
  - intros E. now apply Qc_is_canon.
  - intros ->. reflexivity.
Qed.

Lemma is_zero_false (q : Qc) : is_zero q = false <-> q <> 0%Qc.
Proof.
  rewrite <- is_zero_true. destruct (is_zero q); split; congruence.
Qed.

Lemma strict_equals_zero (q : Qc) :
  (Fin q === num 0)%js = is_zero q.
Proof. reflexivity. Qed.

Lemma leb_Fin (a b : Qc) : leb (Fin a) (Fin b) = true <-> (a <= b)%Qc.
Proof. cbn [leb]. apply Qle_bool_iff. Qed.

Lemma ltb_Fin (a b : Qc) : ltb (Fin a) (Fin b) = true <-> (a < b)%Qc.
Proof.
  cbn [ltb leb]. unfold Qclt. destruct (Qle_bool b a) eqn:E; cbn [negb].
  - apply Qle_bool_iff in E. split; [discriminate|].
    intros H. exfalso. exact (Qlt_not_le _ _ H E).
  - split; [intros _|reflexivity]. apply Qnot_le_lt.
    intros H. apply Qle_bool_iff in H. congruence.
Qed.

Lemma inject_Z_Qc_le (m n : Z) :
  (Q2Qc (inject_Z m) <= Q2Qc (inject_Z n))%Qc <-> (m <= n)%Z.
Proof. to_Q. now rewrite Zle_Qle. Qed.

Lemma leb_of_Z (m n : Z) : leb (of_Z m) (of_Z n) = true <-> (m <= n)%Z.
Proof. unfold of_Z. rewrite leb_Fin. apply inject_Z_Qc_le. Qed.

(** [Math.round] returns the integer [n] with [n - 1/2 <= x < n + 1/2]:
    the nearest integer, the upper one at a tie. *)
Lemma Math_round_spec (q : Qc) :
  exists n : Z,
    Math_round (Fin q) = of_Z n /\
    (inject_Z n - (1 # 2) <= q)%Q /\ (q < inject_Z n + (1 # 2))%Q.
Proof.
  exists (Qfloor (q + Q2Qc (1 # 2))%Qc). split; [reflexivity|].
  pose proof (Qfloor_le (q + Q2Qc (1 # 2))%Qc) as Hlo.
  pose proof (Qlt_floor (q + Q2Qc (1 # 2))%Qc) as Hhi.
  set (n := Qfloor (q + Q2Qc (1 # 2))%Qc) in *.
  assert (E : ((q + Q2Qc (1 # 2))%Qc == q + (1 # 2))%Q) by (to_Q; reflexivity).
  rewrite E in Hlo, Hhi.
  rewrite inject_Z_plus in Hhi. change (inject_Z 1) with 1%Q in Hhi.
  split; lra.
Qed.

Lemma Math_round_unique (q : Qc) (n : Z) :
  (inject_Z n - (1 # 2) <= q)%Q -> (q < inject_Z n + (1 # 2))%Q ->
  Math_round (Fin q) = of_Z n.
Proof.
  intros Hlo Hhi. destruct (Math_round_spec q) as (m & -> & Hm1 & Hm2).
  f_equal. 
  assert (inject_Z m < inject_Z n + 1)%Q as H1 by lra.
  assert (inject_Z n < inject_Z m + 1)%Q as H2 by lra.
  change 1%Q with (inject_Z 1) in H1, H2.
  rewrite <- inject_Z_plus in H1, H2.
  rewrite <- Zlt_Qlt in H1, H2. lia.
Qed.

End NumberFacts.

(** ** Closed forms of the getters *)

Module CalculatorFacts.
Import JS Calculator NumberFacts.
Local Open Scope js_scope.

(** Unfolds the getters down to arithmetic on the fields. *)
Ltac getters :=
  unfold savingsPercentage, savings, competitorTotal, inforceTotal,
    costPerEvent, rampUpCost, onboardingCost, idleTimeCost,
    competitorTurnoverEvents, inforceTurnoverEvents, hoursPerWeek;
  cbn [hourlyRate teamSize projectDuration experienceLevel inForceTurnover
       competitorTurnover vacancyWeeks vacancyPayment onboardingDays
       onboardingPayment with_inputs calculator].

Lemma own_lookup_junior : rampUpTimelines calculator !! "junior" = Some (number (num 60)).
Proof. reflexivity. Qed.

Lemma own_lookup_mixed : rampUpTimelines calculator !! "mixed" = Some (number (num 45)).
Proof. reflexivity. Qed.

Lemma own_lookup_senior : rampUpTimelines calculator !! "senior" = Some (number (num 30)).
Proof. reflexivity. Qed.

Lemma own_lookup_other (level : string) :
  ~ valid_level level -> rampUpTimelines calculator !! level = None.
Proof.
  intros H. unfold valid_level in H.
  cbn [rampUpTimelines calculator list_to_map foldr fst snd uncurry].
  rewrite !lookup_insert_ne by (intros <-; tauto).
  apply lookup_empty.
Qed.

Lemma Object_prototype_builtin (key : string) (v : value) :
  Object_prototype !! key = Some v -> exists name, v = builtin name.
Proof.
  intros H. apply elem_of_list_to_map_2 in H.
  repeat (apply elem_of_cons in H as [H|H]; [inversion H; eauto|]).
  now apply elem_of_nil in H.
Qed.

Lemma rampUpDays_valid (h t d : Number) (level : string) :
  valid_level level ->
  exists days : Q,
    (level = "junior" /\ days = 60%Q \/
     level = "mixed" /\ days = 45%Q \/
     level = "senior" /\ days = 30%Q) /\
    rampUpDays (with_inputs h t d level) = number (num days).
Proof.
  intros [-> | [-> | ->]]; [exists 60%Q | exists 45%Q | exists 30%Q];
    (split; [tauto | reflexivity]).
Qed.

Lemma rampUpDays_other (h t d : Number) (level : string) :
  ~ valid_level level ->
  rampUpDays (with_inputs h t d level) =
    match Object_prototype !! level with Some v => v | None => undefined end.
Proof.
  intros H. unfold rampUpDays, Get.
  cbn [rampUpTimelines experienceLevel with_inputs].
  now rewrite (own_lookup_other level H).
Qed.

Lemma rampUpDays_not_a_number (h t d : Number) (level : string) :
  ~ valid_level level -> ToNumber (rampUpDays (with_inputs h t d level)) = NaN.
Proof.
  intros H. rewrite (rampUpDays_other h t d level H).
  destruct (Object_prototype !! level) as [v|] eqn:E; [|reflexivity].
  destruct (Object_prototype_builtin _ _ E) as [name ->]. reflexivity.
Qed.

Lemma idleTimeCost_Fin (h : Qc) (t d : Number) (level : string) :
  idleTimeCost (with_inputs (Fin h) t d level) = Fin (Q2Qc 80 * h)%Qc.
Proof. getters. unfold num. rewrite !mul_Fin. apply Fin_eq. to_Q. ring. Qed.

Lemma onboardingCost_Fin (h : Qc) (t d : Number) (level : string) :
  onboardingCost (with_inputs (Fin h) t d level) = Fin (Q2Qc 40 * h)%Qc.
Proof.
  getters. unfold num. rewrite div_Fin by reflexivity. rewrite !mul_Fin.
  apply Fin_eq. to_Q. field.
Qed.

Lemma rampUpCost_Fin (h : Qc) (t d : Number) (level : string) (days : Q) :
  rampUpDays (with_inputs (Fin h) t d level) = number (num days) ->
  rampUpCost (with_inputs (Fin h) t d level) = Fin (Q2Qc (4 * days) * h)%Qc.
Proof.
  intros E. getters. rewrite E. cbn [ToNumber]. unfold num.
  rewrite div_Fin by reflexivity. rewrite sub_Fin, !mul_Fin.
  apply Fin_eq. to_Q. field.
Qed.

(** For a valid level the cost of an event is a positive multiple of the
    hourly rate: 360, 300 or 240 hours. *)
Lemma costPerEvent_Fin (level : string) :
  valid_level level ->
  exists k : Qc, (0 < k)%Qc /\
    forall (h : Qc) (t d : Number),
      costPerEvent (with_inputs (Fin h) t d level) = Fin (k * h)%Qc.
Proof.
  intros V.
  destruct (rampUpDays_valid NaN NaN NaN level V) as (days & Hd & _).
  exists (Q2Qc (120 + 4 * days)). split.
  - to_Q. destruct Hd as [[_ ->] | [[_ ->] | [_ ->]]]; reflexivity.
  - intros h t d.
    destruct (rampUpDays_valid (Fin h) t d level V) as (days' & Hd' & E).
    assert (days' = days) as -> by
      (destruct Hd as [[-> ->] | [[-> ->] | [-> ->]]];
       destruct Hd' as [[? ->] | [[? ->] | [? ->]]]; congruence).
    unfold costPerEvent.
    rewrite idleTimeCost_Fin, onboardingCost_Fin, (rampUpCost_Fin _ _ _ _ _ E).
    rewrite !add_Fin. apply Fin_eq. to_Q. ring.
Qed.

Lemma competitorTurnoverEvents_Fin (h : Number) (t d : Qc) (level : string) :
  competitorTurnoverEvents (with_inputs h (Fin t) (Fin d) level) =
    of_Z (Qfloor (Q2Qc 0.30 * t * (d / Q2Qc 12) + Q2Qc (1 # 2))%Qc).
Proof. getters. unfold num. now rewrite div_Fin by reflexivity. Qed.

Lemma inforceTurnoverEvents_Fin (h : Number) (t d : Qc) (level : string) :
  inforceTurnoverEvents (with_inputs h (Fin t) (Fin d) level) =
    of_Z (Qfloor (Q2Qc 0.05 * t * (d / Q2Qc 12) + Q2Qc (1 # 2))%Qc).
Proof. getters. unfold num. now rewrite div_Fin by reflexivity. Qed.

Lemma valid_level_dec (level : string) : valid_level level \/ ~ valid_level level.
Proof.
  unfold valid_level.
  destruct (decide (level = "junior")); [tauto|].
  destruct (decide (level = "mixed")); [tauto|].
  destruct (decide (level = "senior")); tauto.
Qed.

(** *** Special values *)

Lemma add_NaN_r (x : Number) : x + NaN = NaN.
Proof. now destruct x. Qed.

Lemma mul_NaN_r (x : Number) : x * NaN = NaN.
Proof. now destruct x. Qed.

Lemma isFinite_Fin (x : Number) : isFinite x = true -> exists q, x = Fin q.
Proof. destruct x; try discriminate. eauto. Qed.

Lemma rampUpCost_unknown (h t d : Number) (level : string) :
  ~ valid_level level -> rampUpCost (with_inputs h t d level) = NaN.
Proof.
  intros U. unfold rampUpCost. now rewrite (rampUpDays_not_a_number h t d level U).
Qed.

Lemma costPerEvent_unknown (h t d : Number) (level : string) :
  ~ valid_level level -> costPerEvent (with_inputs h t d level) = NaN.
Proof.
  intros U. unfold costPerEvent. rewrite (rampUpCost_unknown h t d level U).
  apply add_NaN_r.
Qed.

Lemma finite_mul_inv (x y : Number) :
  isFinite (x * y) = true -> isFinite x = true /\ isFinite y = true.
Proof.
  destruct x as [|s|a], y as [|s'|b]; cbn [mul isFinite]; try discriminate;
    try (destruct (is_zero _); discriminate).
  intros _. split; reflexivity.
Qed.

Lemma finite_add_inv (x y : Number) :
  isFinite (x + y) = true -> isFinite x = true /\ isFinite y = true.
Proof.
  destruct x as [|s|a], y as [|s'|b]; cbn [add isFinite]; try discriminate;
    try (destruct (Bool.eqb _ _); discriminate).
  intros _. split; reflexivity.
Qed.

Lemma finite_div_inv (x : Number) (b : Qc) :
  isFinite (x / Fin b) = true -> isFinite x = true.
Proof. destruct x as [|s|a]; cbn [div isFinite]; try discriminate. reflexivity. Qed.

Lemma finite_round_inv (x : Number) :
  isFinite (Math_round x) = true -> isFinite x = true.
Proof. destruct x; cbn [Math_round isFinite]; try discriminate. reflexivity. Qed.

(** A finite cost per event means a valid level and a finite rate. *)
Lemma finite_cost_inputs (h t d : Number) (level : string) :
  isFinite (costPerEvent (with_inputs h t d level)) = true ->
  valid_level level /\ exists h' : Qc, h = Fin h'.
Proof.
  intros F. unfold costPerEvent in F.
  apply finite_add_inv in F as [F Framp]. apply finite_add_inv in F as [Fidle _].
  split.
  - destruct (valid_level_dec level) as [V | U]; [exact V|].
    rewrite (rampUpCost_unknown h t d level U) in Framp. discriminate Framp.
  - unfold idleTimeCost in Fidle.
    cbn [hourlyRate vacancyPayment vacancyWeeks with_inputs] in Fidle.
    apply finite_mul_inv in Fidle as [Fidle _].
    apply finite_mul_inv in Fidle as [_ Fh].
    now apply isFinite_Fin.
Qed.

(** A finite event count means a finite team size and a finite duration. *)
Lemma finite_events_inputs (r h t d : Number) (level : string) :
  isFinite (Math_round (r * t * (d / num 12))) = true ->
  (exists t' : Qc, t = Fin t') /\ (exists d' : Qc, d = Fin d').
Proof.
  intros F. apply finite_round_inv in F. apply finite_mul_inv in F as [F1 F2].
  apply finite_mul_inv in F1 as [_ Ft]. apply finite_div_inv in F2.
  split; now apply isFinite_Fin.
Qed.

Lemma finite_competitor_events_inputs (h t d : Number) (level : string) :
  isFinite (competitorTurnoverEvents (with_inputs h t d level)) = true ->
  (exists t' : Qc, t = Fin t') /\ (exists d' : Qc, d = Fin d').
Proof. apply (finite_events_inputs (num 0.30) h t d level). Qed.

(** A finite competitor total means a valid level and finite inputs. *)
Lemma finite_total_inputs (h t d : Number) (level : string) :
  isFinite (competitorTotal (with_inputs h t d level)) = true ->
  valid_level level /\
  exists h' t' d' : Qc, h = Fin h' /\ t = Fin t' /\ d = Fin d'.
Proof.
  intros F. unfold competitorTotal in F. apply finite_mul_inv in F as [Fe Fc].
  destruct (finite_cost_inputs h t d level Fc) as (V & h' & ->).
  destruct (finite_competitor_events_inputs _ t d level Fe) as ((t' & ->) & (d' & ->)).
  split; [exact V|]. now exists h', t', d'.
Qed.

Lemma nonneg_of_leb (q : Qc) : leb (num 0) (Fin q) = true -> (0 <= q)%Qc.
Proof. intros H. now apply leb_Fin in H. Qed.

End CalculatorFacts.

(** ** The cost model *)

Module CalculatorSpec.
Import JS Calculator Documented NumberFacts CalculatorFacts.
Local Open Scope js_scope.

(** Evaluates a closed numeric equation. *)
Ltac evaluated := vm_compute; apply Fin_eq; reflexivity.

Lemma example_inputs_are_defaults : example_inputs = calculator.
Proof. reflexivity. Qed.

Lemma example_competitorTurnoverEvents :
  competitorTurnoverEvents example_inputs = num 5.
Proof. evaluated. Qed.

Lemma example_inforceTurnoverEvents :
  inforceTurnoverEvents example_inputs = num 1.
Proof. evaluated. Qed.

Lemma example_costPerEvent : costPerEvent example_inputs = num 60000.
Proof. evaluated. Qed.

Lemma example_competitorTotal : competitorTotal example_inputs = num 300000.
Proof. evaluated. Qed.

Lemma example_inforceTotal : inforceTotal example_inputs = num 60000.
Proof. evaluated. Qed.

Lemma example_savings : savings example_inputs = num 240000.
Proof. evaluated. Qed.

Lemma example_savingsPercentage : savingsPercentage example_inputs = num 80.
Proof. evaluated. Qed.

(** C1, as documented: the README's figures for the example scenario
    ($332,000, $66,400 and $265,600) are not what the getters compute; the
    competitor total is $300,000, which is $32,000 away. *)
Lemma example_figures_not_computed : ~ example_figures example_inputs.
Proof.
  intros (_ & _ & (q & E & H) & _).
  rewrite example_competitorTotal in E. injection E as <-.
  apply Qle_bool_iff in H. vm_compute in H. discriminate.
Qed.

(** C1, amended: for hourlyRate 200, teamSize 12, projectDuration 18 and
    level mixed there are 5 competitor events and 1 InForce event, an event
    costs $60,000, the totals are exactly $300,000 and $60,000, the savings
    $240,000 and the savings percentage 80. *)
Theorem example_calculation :
  competitorTurnoverEvents example_inputs = num 5 /\
  inforceTurnoverEvents example_inputs = num 1 /\
  costPerEvent example_inputs = num 60000 /\
  competitorTotal example_inputs = num 300000 /\
  inforceTotal example_inputs = num 60000 /\
  savings example_inputs = num 240000 /\
  savingsPercentage example_inputs = num 80.
Proof.
  split; [exact example_competitorTurnoverEvents|].
  split; [exact example_inforceTurnoverEvents|].
  split; [exact example_costPerEvent|].
  split; [exact example_competitorTotal|].
  split; [exact example_inforceTotal|].
  split; [exact example_savings|].
  exact example_savingsPercentage.
Qed.


(** C5: for a valid level the three components of the cost of an event
    are the products the source writes, with rampUpDays read from
    junior: 60, mixed: 45, senior: 30, and costPerEvent is their sum. *)
Theorem cost_per_event_breakdown (h t d : Number) (level : string) :
  valid_level level ->
  let this := with_inputs h t d level in
  idleTimeCost this = num 2 * num 40 * h * num 1.0 /\
  onboardingCost this = (num 5 / num 5) * num 40 * h * num 1.0 /\
  (exists days : Q,
      (level = "junior" /\ days = 60%Q \/
       level = "mixed" /\ days = 45%Q \/
       level = "senior" /\ days = 30%Q) /\
      rampUpDays this = number (num days) /\
      rampUpCost this = (num days / num 5) * num 40 * h * (num 1 - num 0.5)) /\
  costPerEvent this = idleTimeCost this + onboardingCost this + rampUpCost this.
Proof.
  intros V this. split; [reflexivity|]. split; [reflexivity|]. split; [|reflexivity].
  destruct (rampUpDays_valid h t d level V) as (days & Hd & E).
  exists days. split; [exact Hd|]. split; [exact E|].
  subst this. unfold rampUpCost. now rewrite E.
Qed.

Lemma cost_per_event_breakdown_witness :
  valid_level "senior" /\
  rampUpCost (with_inputs (num 150) (num 5) (num 6) "senior") =
    (num 30 / num 5) * num 40 * num 150 * (num 1 - num 0.5).
Proof.
  assert (V : valid_level "senior") by (right; right; reflexivity).
  split; [exact V|].
  destruct (cost_per_event_breakdown (num 150) (num 5) (num 6) "senior" V)
    as (_ & _ & (days & Hd & _ & E) & _).
  destruct Hd as [[X _] | [[X _] | [_ ->]]]; [discriminate X | discriminate X | exact E].
Defined.

(** C6: each total is the party's event count times the one cost per
    event, and savings is the difference of the two totals: the very same
    number, which [===] confirms whenever it is not NaN. *)
Theorem totals_and_savings (h t d : Number) (level : string) :
  let this := with_inputs h t d level in
  exists k : Number,
    costPerEvent this = k /\
    competitorTotal this = competitorTurnoverEvents this * k /\
    inforceTotal this = inforceTurnoverEvents this * k /\
    savings this = competitorTotal this - inforceTotal this /\
    (savings this === competitorTotal this - inforceTotal this) =
      negb (isNaN (savings this)).
Proof.
  intros this. exists (costPerEvent this).
  split; [reflexivity|]. split; [reflexivity|]. split; [reflexivity|].
  split; [reflexivity|].
  change (competitorTotal this - inforceTotal this) with (savings this).
  destruct (savings this) as [|s|q]; cbn [strict_equals isNaN negb].
  - reflexivity.
  - now destruct s.
  - apply Qeq_bool_iff. reflexivity.
Qed.

Lemma savingsPercentage_zero (this : calc) (q : Qc) :
  competitorTotal this = Fin q -> is_zero q = true ->
  savingsPercentage this = num 0.
Proof.
  intros E Z. unfold savingsPercentage. rewrite E, strict_equals_zero, Z.
  reflexivity.
Qed.

Lemma no_team_no_events (h : Number) (d : Qc) (level : string) :
  competitorTurnoverEvents (with_inputs h (num 0) (Fin d) level) = num 0.
Proof.
  getters. unfold num. rewrite div_Fin by reflexivity. rewrite !mul_Fin.
  apply (Math_round_unique _ 0%Z); to_Q; change (inject_Z 0) with 0%Q.
  - assert (X : (0.30 * 0 * (d * / 12) == 0)%Q) by ring. rewrite X. lra.
  - assert (X : (0.30 * 0 * (d * / 12) == 0)%Q) by ring. rewrite X. lra.
Qed.

Lemma zero_events_zero_percentage (this : calc) :
  competitorTurnoverEvents this = num 0 ->
  isFinite (costPerEvent this) = true ->
  savingsPercentage this = num 0.
Proof.
  intros E F. destruct (isFinite_Fin _ F) as (c & C).
  apply (savingsPercentage_zero this (Q2Qc 0 * c)%Qc).
  - unfold competitorTotal. now rewrite E, C.
  - apply is_zero_true. Qc_eq. ring.
Qed.

(** C7: savingsPercentage is 0 whenever competitorTotal is 0, and
    savings / competitorTotal * 100 otherwise.  competitorTotal is 0, and
    the percentage with it, for a team of size 0 and whenever the competitor
    event count rounds to 0, provided costPerEvent is a finite number. *)
Theorem savings_percentage_guard (h t d : Number) (level : string) :
  let this := with_inputs h t d level in
  ((competitorTotal this === num 0) = true ->
     savingsPercentage this = num 0 /\ isFinite (savingsPercentage this) = true) /\
  ((competitorTotal this === num 0) = false ->
     savingsPercentage this = savings this / competitorTotal this * num 100) /\
  (forall d' : Qc,
     isFinite (costPerEvent (with_inputs h (num 0) (Fin d') level)) = true ->
     savingsPercentage (with_inputs h (num 0) (Fin d') level) = num 0) /\
  (competitorTurnoverEvents this = num 0 ->
     isFinite (costPerEvent this) = true ->
     savingsPercentage this = num 0).
Proof.
  intros this. split; [|split; [|split]].
  - intros E. unfold savingsPercentage. now rewrite E.
  - intros E. unfold savingsPercentage. now rewrite E.
  - intros d' F. apply zero_events_zero_percentage; [|exact F].
    apply no_team_no_events.
  - apply zero_events_zero_percentage.
Qed.

Lemma savings_percentage_guard_witness :
  isFinite (costPerEvent (with_inputs (num 350) (num 0) (num 36) "junior")) = true /\
  (competitorTotal (with_inputs (num 350) (num 0) (num 36) "junior") === num 0) = true /\
  savingsPercentage (with_inputs (num 350) (num 0) (num 36) "junior") = num 0 /\
  (competitorTotal example_inputs === num 0) = false /\
  savingsPercentage example_inputs =
    savings example_inputs / competitorTotal example_inputs * num 100.
Proof.
  assert (F : isFinite (costPerEvent (with_inputs (num 350) (num 0) (Fin (Q2Qc 36))
                          "junior")) = true) by reflexivity.
  split; [exact F|]. split; [reflexivity|].
  split.
  - exact (proj1 (proj2 (proj2
             (savings_percentage_guard (num 350) (num 0) (num 36) "junior")))
             (Q2Qc 36) F).
  - split; [reflexivity|].
    exact (proj1 (proj2
             (savings_percentage_guard (num 200) (num 12) (num 18) "mixed"))
             eq_refl).
Defined.

Lemma total_Fin (n : Z) (c : Qc) :
  of_Z n * Fin c = Fin (Q2Qc (inject_Z n) * c)%Qc.
Proof. reflexivity. Qed.

Lemma scale_lt (n k a b : Q) :
  (1 <= n)%Q -> (0 < k)%Q -> (a < b)%Q -> (n * (k * a) < n * (k * b))%Q.
Proof.
  intros Hn Hk Hab.
  apply Qmult_lt_l; [lra|]. now apply Qmult_lt_l.
Qed.

(** C8, as stated: with a team of 5 over 6 months a turnover event occurs
    (the competitor has one), yet raising the hourly rate from 200 to 300
    leaves inforceTotal at 0, InForce having no event. *)
Lemma single_event_leaves_inforceTotal :
  ltb (hourlyRate (small_team 200)) (hourlyRate (small_team 300)) = true /\
  competitorTurnoverEvents (small_team 200) = num 1 /\
  inforceTurnoverEvents (small_team 200) = num 0 /\
  inforceTotal (small_team 200) = num 0 /\
  inforceTotal (small_team 300) = num 0 /\
  ltb (inforceTotal (small_team 200)) (inforceTotal (small_team 300)) = false.
Proof.
  split; [reflexivity|]. split; [evaluated|]. split; [evaluated|].
  split; [evaluated|]. split; [evaluated|]. reflexivity.
Qed.

Lemma scale_le (e k a b : Q) :
  (1 <= e)%Q -> (0 < k)%Q -> (a <= b)%Q -> (e * (k * a) <= e * (k * b))%Q.
Proof.
  intros He Hk Hab.
  rewrite !(Qmult_comm e). apply Qmult_le_compat_r; [|lra].
  rewrite !(Qmult_comm k). apply Qmult_le_compat_r; lra.
Qed.

(** C8, amended: between two inputs with a valid level that differ only in
    hourlyRate, the larger rate never gives a smaller costPerEvent, nor a
    smaller total for a party that has at least one event.  For whole-dollar
    rates from 0 to 10^9 the increase is strict: costPerEvent is strictly
    larger, competitorTotal is strictly larger when the competitor has at
    least one event, and inforceTotal is strictly larger when InForce has at
    least one event (the larger total being finite). *)
Theorem hourly_rate_raises_costs (t d : Number) (level : string) :
  valid_level level ->
  (forall h h' : Qc, (h <= h')%Qc ->
     let low := with_inputs (Fin h) t d level in
     let high := with_inputs (Fin h') t d level in
     leb (costPerEvent low) (costPerEvent high) = true /\
     (leb (num 1) (competitorTurnoverEvents low) = true ->
      isFinite (competitorTurnoverEvents low) = true ->
        leb (competitorTotal low) (competitorTotal high) = true) /\
     (leb (num 1) (inforceTurnoverEvents low) = true ->
      isFinite (inforceTurnoverEvents low) = true ->
        leb (inforceTotal low) (inforceTotal high) = true)) /\
  (forall n n' : Z, (0 <= n)%Z -> (n < n')%Z -> (n' <= 10 ^ 9)%Z ->
     let low := with_inputs (of_Z n) t d level in
     let high := with_inputs (of_Z n') t d level in
     ltb (costPerEvent low) (costPerEvent high) = true /\
     (leb (num 1) (competitorTurnoverEvents low) = true ->
      isFinite (competitorTotal high) = true ->
        ltb (competitorTotal low) (competitorTotal high) = true) /\
     (leb (num 1) (inforceTurnoverEvents low) = true ->
      isFinite (inforceTotal high) = true ->
        ltb (inforceTotal low) (inforceTotal high) = true)).
Proof.
  intros V. destruct (costPerEvent_Fin level V) as (k & Hk & K).
  assert (Hk' : (0 < k)%Q) by exact Hk.
  split.
  - intros h h' Hle low high. subst low high.
    assert (Hle' : (h <= h')%Q) by exact Hle.
    split; [rewrite !K; apply leb_Fin; to_Q; apply Qmult_le_l; assumption|].
    split; intros H1 F; unfold competitorTotal, inforceTotal; rewrite !K;
      destruct (isFinite_Fin _ F) as (e & E);
      change (competitorTurnoverEvents (with_inputs (Fin h') t d level))
        with (competitorTurnoverEvents (with_inputs (Fin h) t d level));
      change (inforceTurnoverEvents (with_inputs (Fin h') t d level))
        with (inforceTurnoverEvents (with_inputs (Fin h) t d level));
      rewrite E in *; apply leb_Fin in H1; rewrite !mul_Fin; apply leb_Fin;
      to_Q; apply scale_le; assumption.
  - intros n n' H0 Hlt Hmax low high. subst low high. unfold of_Z.
    assert (Hlt' : (inject_Z n < inject_Z n')%Q) by now rewrite <- Zlt_Qlt.
    split; [rewrite !K; apply ltb_Fin; to_Q; apply Qmult_lt_l; assumption|].
    split; intros H1 F; unfold competitorTotal, inforceTotal in *;
      apply finite_mul_inv in F as [F _];
      destruct (isFinite_Fin _ F) as (e & E);
      change (competitorTurnoverEvents (with_inputs (Fin (Q2Qc (inject_Z n'))) t d level))
        with (competitorTurnoverEvents (with_inputs (Fin (Q2Qc (inject_Z n))) t d level)) in E;
      change (inforceTurnoverEvents (with_inputs (Fin (Q2Qc (inject_Z n'))) t d level))
        with (inforceTurnoverEvents (with_inputs (Fin (Q2Qc (inject_Z n))) t d level)) in E;
      change (competitorTurnoverEvents (with_inputs (Fin (Q2Qc (inject_Z n'))) t d level))
        with (competitorTurnoverEvents (with_inputs (Fin (Q2Qc (inject_Z n))) t d level));
      change (inforceTurnoverEvents (with_inputs (Fin (Q2Qc (inject_Z n'))) t d level))
        with (inforceTurnoverEvents (with_inputs (Fin (Q2Qc (inject_Z n))) t d level));
      rewrite !K; rewrite E in *; apply leb_Fin in H1; rewrite !mul_Fin;
      apply ltb_Fin; to_Q; apply scale_lt; assumption.
Qed.

Lemma hourly_rate_raises_costs_witness :
  valid_level "mixed" /\ (0 <= 200)%Z /\ (200 < 250)%Z /\ (250 <= 10 ^ 9)%Z /\
  leb (num 1) (inforceTurnoverEvents example_inputs) = true /\
  isFinite (inforceTotal (with_inputs (num 250) (num 12) (num 18) "mixed")) = true /\
  ltb (inforceTotal example_inputs)
      (inforceTotal (with_inputs (num 250) (num 12) (num 18) "mixed")) = true.
Proof.
  assert (V : valid_level "mixed") by (right; left; reflexivity).
  assert (H0 : (0 <= 200)%Z) by lia.
  assert (H1 : (200 < 250)%Z) by lia.
  assert (H2 : (250 <= 10 ^ 9)%Z) by lia.
  split; [exact V|]. split; [exact H0|]. split; [exact H1|]. split; [exact H2|].
  split; [reflexivity|]. split; [reflexivity|].
  exact (proj2 (proj2 (proj2 (hourly_rate_raises_costs (num 12) (num 18) "mixed" V)
                         200%Z 250%Z H0 H1 H2)) eq_refl eq_refl).
Defined.

Lemma percent_bounds (T I : Q) :
  (0 <= I)%Q -> (I <= T)%Q -> ~ (T == 0)%Q ->
  (0 <= (T - I) / T * 100)%Q /\ ((T - I) / T * 100 <= 100)%Q.
Proof.
  intros HI HT HZ.
  assert (HP : (0 < T)%Q) by (apply Qnot_le_lt; intros X; apply HZ; lra).
  assert (H0 : (0 <= (T - I) / T)%Q) by (apply Qle_shift_div_l; [exact HP | lra]).
  assert (H1 : ((T - I) / T <= 1)%Q) by (apply Qle_shift_div_r; [exact HP | lra]).
  set (x := ((T - I) / T)%Q) in *. split; lra.
Qed.

Lemma events_ordered (t d : Qc) :
  (0 <= t)%Qc -> (0 <= d)%Qc ->
  (0 <= Qfloor (Q2Qc 0.05 * t * (d / Q2Qc 12) + Q2Qc (1 # 2))%Qc)%Z /\
  (Qfloor (Q2Qc 0.05 * t * (d / Q2Qc 12) + Q2Qc (1 # 2))%Qc <=
   Qfloor (Q2Qc 0.30 * t * (d / Q2Qc 12) + Q2Qc (1 # 2))%Qc)%Z.
Proof.
  intros Ht Hd.
  assert (Ht' : (0 <= t)%Q) by exact Ht.
  assert (Hd' : (0 <= d)%Q) by exact Hd.
  assert (Htd : (0 <= t * d)%Q) by now apply Qmult_le_0_compat.
  assert (Ei : ((Q2Qc 0.05 * t * (d / Q2Qc 12) + Q2Qc (1 # 2))%Qc ==
                (5 # 1200) * (t * d) + (1 # 2))%Q) by (to_Q; field).
  assert (Ec : ((Q2Qc 0.30 * t * (d / Q2Qc 12) + Q2Qc (1 # 2))%Qc ==
                (30 # 1200) * (t * d) + (1 # 2))%Q) by (to_Q; field).
  split.
  - change 0%Z with (Qfloor 0). apply Qfloor_resp_le. rewrite Ei. lra.
  - apply Qfloor_resp_le. rewrite Ei, Ec. lra.
Qed.

(** The bounds on the model's finite non-negative values, where no total
    overflows. *)
Lemma bounds_on_finite_inputs (h t d : Qc) (level : string) :
  (0 <= h)%Qc -> (0 <= t)%Qc -> (0 <= d)%Qc ->
  valid_level level ->
  let this := with_inputs (Fin h) (Fin t) (Fin d) level in
  leb (inforceTurnoverEvents this) (competitorTurnoverEvents this) = true /\
  leb (num 0) (savings this) = true /\
  ltb (savings this) (num 0) = false /\
  leb (num 0) (savingsPercentage this) = true /\
  leb (savingsPercentage this) (num 100) = true.
Proof.
  intros Hh Ht Hd V this. subst this.
  destruct (costPerEvent_Fin level V) as (k & Hk & K).
  destruct (events_ordered t d Ht Hd) as (Hi0 & Hic).
  assert (HK : (0 <= k * h)%Q).
  { apply Qmult_le_0_compat; [apply Qlt_le_weak; exact Hk | exact Hh]. }
  unfold savingsPercentage, savings, competitorTotal, inforceTotal.
  rewrite !K, !competitorTurnoverEvents_Fin, !inforceTurnoverEvents_Fin.
  set (nc := Qfloor (Q2Qc 0.30 * t * (d / Q2Qc 12) + Q2Qc (1 # 2))%Qc) in *.
  set (ni := Qfloor (Q2Qc 0.05 * t * (d / Q2Qc 12) + Q2Qc (1 # 2))%Qc) in *.
  assert (Qi0 : (0 <= inject_Z ni)%Q) by (change 0%Q with (inject_Z 0); now rewrite <- Zle_Qle).
  assert (Qic : (inject_Z ni <= inject_Z nc)%Q) by now rewrite <- Zle_Qle.
  assert (HI : (0 <= inject_Z ni * (k * h))%Q) by now apply Qmult_le_0_compat.
  assert (HT : (inject_Z ni * (k * h) <= inject_Z nc * (k * h))%Q)
    by now apply Qmult_le_compat_r.
  rewrite !total_Fin, !sub_Fin.
  split; [now apply leb_of_Z|].
  assert (S0 : (Q2Qc 0 <= Q2Qc (inject_Z nc) * (k * h) - Q2Qc (inject_Z ni) * (k * h))%Qc).
  { to_Q. lra. }
  split; [now apply leb_Fin|]. split.
  - cbn [ltb leb]. unfold num. apply Bool.negb_false_iff. now apply Qle_bool_iff.
  - rewrite strict_equals_zero.
    destruct (is_zero (Q2Qc (inject_Z nc) * (k * h))%Qc) eqn:Z.
    + split; reflexivity.
    + rewrite div_Fin by exact Z. unfold num. rewrite mul_Fin.
      assert (NZ : ~ (inject_Z nc * (k * h) == 0)%Q).
      { intros X. apply is_zero_false in Z. apply Z. Qc_eq. exact X. }
      destruct (percent_bounds _ _ HI HT NZ) as (P0 & P1).
      split; apply leb_Fin; to_Q; [exact P0 | exact P1].
Qed.

(** C9, as stated: an infinite hourly rate is non-negative, and with it
    both totals are Infinity, so that savings and savingsPercentage are NaN:
    savings >= 0 does not hold. *)
Lemma infinite_rate_gives_NaN_savings :
  leb (num 0) (Infinity false) = true /\
  valid_level "mixed" /\
  competitorTotal (with_inputs (Infinity false) (num 12) (num 18) "mixed")
    = Infinity false /\
  inforceTotal (with_inputs (Infinity false) (num 12) (num 18) "mixed")
    = Infinity false /\
  savings (with_inputs (Infinity false) (num 12) (num 18) "mixed") = NaN /\
  leb (num 0) (savings (with_inputs (Infinity false) (num 12) (num 18) "mixed"))
    = false /\
  savingsPercentage (with_inputs (Infinity false) (num 12) (num 18) "mixed") = NaN.
Proof.
  split; [reflexivity|]. split; [right; left; reflexivity|].
  repeat split; reflexivity.
Qed.

(** C9, amended: with non-negative hourlyRate, teamSize and projectDuration,
    a valid level and a finite competitorTotal (no total has grown to
    Infinity), InForce has at most as many events as the competitor, savings
    is a number that is at least 0, never negative, and savingsPercentage
    lies between 0 and 100. *)
Theorem savings_never_negative (h t d : Number) (level : string) :
  leb (num 0) h = true -> leb (num 0) t = true -> leb (num 0) d = true ->
  valid_level level ->
  let this := with_inputs h t d level in
  isFinite (competitorTotal this) = true ->
  leb (inforceTurnoverEvents this) (competitorTurnoverEvents this) = true /\
  leb (num 0) (savings this) = true /\
  ltb (savings this) (num 0) = false /\
  leb (num 0) (savingsPercentage this) = true /\
  leb (savingsPercentage this) (num 100) = true.
Proof.
  intros Hh Ht Hd V this F. subst this.
  destruct (finite_total_inputs h t d level F)
    as (_ & h' & t' & d' & -> & -> & ->).
  apply bounds_on_finite_inputs; [now apply nonneg_of_leb .. | exact V].
Qed.

Lemma savings_never_negative_witness :
  leb (num 0) (num 150) = true /\ leb (num 0) (num 30) = true /\
  leb (num 0) (num 36) = true /\ valid_level "junior" /\
  isFinite (competitorTotal (with_inputs (num 150) (num 30) (num 36) "junior")) = true /\
  leb (num 0) (savings (with_inputs (num 150) (num 30) (num 36) "junior")) = true.
Proof.
  assert (V : valid_level "junior") by (left; reflexivity).
  split; [reflexivity|]. split; [reflexivity|]. split; [reflexivity|].
  split; [exact V|]. split; [reflexivity|].
  exact (proj1 (proj2
           (savings_never_negative (num 150) (num 30) (num 36) "junior"
              eq_refl eq_refl eq_refl V eq_refl))).
Defined.

Lemma every_getter_completes (this : calc) :
  (exists v, evaluate rampUpDays this = Normal v) /\
  Forall (fun g => exists x, evaluate g.2 this = Normal x) numeric_getters.
Proof.
  split; [eexists; reflexivity|].
  unfold numeric_getters. repeat constructor; eexists; reflexivity.
Qed.

(** C2, as stated: the level "expert" is not one of the three keys, and
    yet reading rampUpDays completes normally, with [undefined]; no
    InvalidExperienceLevel error is thrown and savings is NaN. *)
Lemma unknown_level_is_not_rejected :
  ~ valid_level "expert" /\
  evaluate rampUpDays (with_inputs (num 200) (num 12) (num 18) "expert")
    = Normal undefined /\
  evaluate rampUpDays (with_inputs (num 200) (num 12) (num 18) "expert")
    <> Throw "InvalidExperienceLevel" /\
  evaluate savings (with_inputs (num 200) (num 12) (num 18) "expert")
    = Normal NaN.
Proof.
  split; [intros [X | [X | X]]; discriminate X|].
  split; [reflexivity|]. split; [discriminate|reflexivity].
Qed.

(** C2, amended: the core has no failure condition.  Whatever the level,
    reading rampUpDays and the numeric getters completes normally: no
    InvalidExperienceLevel error exists.  For junior, mixed and senior,
    rampUpDays is the configured number 60, 45 or 30.  A level that is not
    one of the three is not rejected: rampUpDays is then [undefined] or an
    inherited built-in, not a number, and rampUpCost and costPerEvent are
    NaN. *)
Theorem no_failure_condition (h t d : Number) (level : string) :
  let this := with_inputs h t d level in
  (exists v, evaluate rampUpDays this = Normal v) /\
  Forall (fun g => exists x, evaluate g.2 this = Normal x) numeric_getters /\
  (valid_level level ->
     exists days : Q,
       (level = "junior" /\ days = 60%Q \/
        level = "mixed" /\ days = 45%Q \/
        level = "senior" /\ days = 30%Q) /\
       evaluate rampUpDays this = Normal (number (num days))) /\
  (~ valid_level level ->
     (evaluate rampUpDays this = Normal undefined \/
      exists name, evaluate rampUpDays this = Normal (builtin name)) /\
     ToNumber (rampUpDays this) = NaN /\
     evaluate rampUpCost this = Normal NaN /\
     evaluate costPerEvent this = Normal NaN).
Proof.
  intros this.
  split; [apply every_getter_completes|]. split; [apply every_getter_completes|].
  subst this. unfold evaluate. split.
  - intros V. destruct (rampUpDays_valid h t d level V) as (days & Hd & E).
    exists days. split; [exact Hd|]. now rewrite E.
  - intros U. split.
    + rewrite (rampUpDays_other h t d level U).
      destruct (Object_prototype !! level) as [v|] eqn:P; [|now left].
      destruct (Object_prototype_builtin _ _ P) as (name & ->). right. now exists name.
    + now rewrite rampUpDays_not_a_number, rampUpCost_unknown, costPerEvent_unknown.
Qed.

Lemma no_failure_condition_witness :
  ~ valid_level "expert" /\ valid_level "junior" /\
  evaluate costPerEvent (with_inputs (num 200) (num 12) (num 18) "expert")
    = Normal NaN /\
  exists days : Q,
    evaluate rampUpDays (with_inputs (num 200) (num 12) (num 18) "junior")
      = Normal (number (num days)).
Proof.
  assert (U : ~ valid_level "expert") by (intros [X | [X | X]]; discriminate X).
  assert (V : valid_level "junior") by (left; reflexivity).
  split; [exact U|]. split; [exact V|]. split.
  - exact (proj2 (proj2 (proj2 (proj2 (proj2 (proj2
             (no_failure_condition (num 200) (num 12) (num 18) "expert"))) U)))).
  - destruct (proj1 (proj2 (proj2
               (no_failure_condition (num 200) (num 12) (num 18) "junior"))) V)
      as (days & _ & E).
    now exists days.
Defined.

(** C10, as stated: "toString" is not one of the three keys, but the
    lookup does yield a value, the function every object inherits under
    that name, so rampUpDays is not [undefined]. *)
Lemma inherited_member_is_not_undefined :
  ~ valid_level "toString" /\
  rampUpDays (with_inputs (num 200) (num 12) (num 18) "toString")
    = builtin "Object.prototype.toString" /\
  rampUpDays (with_inputs (num 200) (num 12) (num 18) "toString") <> undefined.
Proof.
  split; [intros [X | [X | X]]; discriminate X|].
  split; [reflexivity|discriminate].
Qed.

(** C10, amended: for a level outside junior, mixed and senior no getter
    raises an error.  rampUpDays is not a number: it is [undefined] when
    the level names no property at all, and the inherited built-in when the
    level is the name of a member of Object.prototype.  rampUpCost,
    costPerEvent, competitorTotal, inforceTotal, savings and
    savingsPercentage are NaN, while idleTimeCost, onboardingCost and both
    event counts are the values they have for any other level, given by
    their formulas, in which the level does not occur. *)
Theorem unknown_level_yields_NaN (h t d : Number) (level : string) :
  ~ valid_level level ->
  let this := with_inputs h t d level in
  ((exists v, evaluate rampUpDays this = Normal v) /\
   Forall (fun g => exists x, evaluate g.2 this = Normal x) numeric_getters) /\
  (Object_prototype !! level = None -> rampUpDays this = undefined) /\
  (forall v, Object_prototype !! level = Some v ->
     rampUpDays this = v /\ exists name, v = builtin name) /\
  ToNumber (rampUpDays this) = NaN /\
  rampUpCost this = NaN /\
  costPerEvent this = NaN /\
  competitorTotal this = NaN /\
  inforceTotal this = NaN /\
  savings this = NaN /\
  savingsPercentage this = NaN /\
  (forall level' : string,
     idleTimeCost this = idleTimeCost (with_inputs h t d level') /\
     onboardingCost this = onboardingCost (with_inputs h t d level') /\
     competitorTurnoverEvents this = competitorTurnoverEvents (with_inputs h t d level') /\
     inforceTurnoverEvents this = inforceTurnoverEvents (with_inputs h t d level')) /\
  idleTimeCost this = num 2 * num 40 * h * num 1.0 /\
  onboardingCost this = (num 5 / num 5) * num 40 * h * num 1.0 /\
  competitorTurnoverEvents this = Math_round (num 0.30 * t * (d / num 12)) /\
  inforceTurnoverEvents this = Math_round (num 0.05 * t * (d / num 12)).
Proof.
  intros U this. subst this.
  pose proof (rampUpDays_other h t d level U) as R.
  pose proof (costPerEvent_unknown h t d level U) as C.
  assert (Tc : competitorTotal (with_inputs h t d level) = NaN)
    by (unfold competitorTotal; rewrite C; apply mul_NaN_r).
  assert (Ti : inforceTotal (with_inputs h t d level) = NaN)
    by (unfold inforceTotal; rewrite C; apply mul_NaN_r).
  assert (S : savings (with_inputs h t d level) = NaN)
    by (unfold savings; now rewrite Tc, Ti).
  split; [apply every_getter_completes|].
  split; [intros E; now rewrite R, E|].
  split; [intros v E; rewrite R, E; split;
          [reflexivity | exact (Object_prototype_builtin _ _ E)]|].
  split; [now apply rampUpDays_not_a_number|].
  split; [now apply rampUpCost_unknown|].
  split; [exact C|]. split; [exact Tc|]. split; [exact Ti|]. split; [exact S|].
  split; [unfold savingsPercentage; now rewrite S, Tc|].
  split; [intros level'; repeat split|].
  repeat split.
Qed.

Lemma unknown_level_yields_NaN_witness :
  ~ valid_level "expert" /\
  savingsPercentage (with_inputs (num 200) (num 12) (num 18) "expert") = NaN /\
  idleTimeCost (with_inputs (num 200) (num 12) (num 18) "expert") =
  idleTimeCost (with_inputs (num 200) (num 12) (num 18) "mixed").
Proof.
  assert (U : ~ valid_level "expert") by (intros [X | [X | X]]; discriminate X).
  split; [exact U|].
  destruct (unknown_level_yields_NaN (num 200) (num 12) (num 18) "expert" U)
    as (_ & _ & _ & _ & _ & _ & _ & _ & _ & P & L & _).
  split; [exact P|]. exact (proj1 (L "mixed")).
Defined.

End CalculatorSpec.

(** ** The productivity curve *)

Module ChartSpec.
Import JS Chart Documented NumberFacts.
Local Open Scope js_scope.

(** The loop leaves through its condition: the thirteen iterations and the
    failing test of [week <= 12] fit in the fuel, and more fuel changes
    nothing. *)
Lemma generateProductivityCurve_fuel (rampUpWeeks : Number) (extra : nat) :
  for_week (14 + extra) rampUpWeeks 0%Z [] = generateProductivityCurve rampUpWeeks.
Proof. reflexivity. Qed.

Lemma generateProductivityCurve_points (rampUpWeeks : Number) :
  generateProductivityCurve rampUpWeeks =
    [ num 0; num 0; num 0;
      ramp rampUpWeeks 3; ramp rampUpWeeks 4; ramp rampUpWeeks 5;
      ramp rampUpWeeks 6; ramp rampUpWeeks 7; ramp rampUpWeeks 8;
      ramp rampUpWeeks 9; ramp rampUpWeeks 10; ramp rampUpWeeks 11;
      ramp rampUpWeeks 12 ].
Proof. reflexivity. Qed.

Lemma ramp_full (q : Qc) :
  (0 < q)%Qc -> (q <= Q2Qc 9)%Qc -> ramp (Fin q) 12 = num 100.
Proof.
  intros Hpos Hle. unfold ramp, of_Z, num. rewrite sub_Fin.
  assert (Z : is_zero q = false).
  { apply is_zero_false. intros ->. discriminate Hpos. }
  rewrite div_Fin by exact Z. rewrite mul_Fin. cbn [Math_min leb].
  assert (L : Qle_bool (Q2Qc 100)
                ((Q2Qc (inject_Z 12) - Q2Qc 3) / q * Q2Qc 100)%Qc = true).
  { apply Qle_bool_iff. to_Q.
    assert (Hpos' : (0 < q)%Q) by exact Hpos.
    assert (Hle' : (q <= 9)%Q) by (to_Q_in Hle; exact Hle).
    assert (H1 : (1 <= (inject_Z 12 + - (3)) / q)%Q).
    { apply Qle_shift_div_l; [exact Hpos'|].
      change (inject_Z 12 + - (3))%Q with 9%Q. lra. }
    unfold Qdiv in H1. set (x := ((inject_Z 12 + - (3)) * / q)%Q) in *. lra. }
  now rewrite L.
Qed.

Lemma seniorCurve_points :
  seniorCurve !! 9%nat = Some (num 100) /\ seniorCurve !! 12%nat = Some (num 100).
Proof. split; vm_compute; f_equal; apply Fin_eq; reflexivity. Qed.

Lemma mixedCurve_last : mixedCurve !! 12%nat = Some (num 100).
Proof. vm_compute; f_equal; apply Fin_eq; reflexivity. Qed.

Lemma juniorCurve_last : juniorCurve !! 12%nat = Some (num 75).
Proof. vm_compute; f_equal; apply Fin_eq; reflexivity. Qed.

Lemma juniorCurve_below_full :
  Forall (fun p => ltb p (num 100) = true) juniorCurve.
Proof. unfold juniorCurve. rewrite generateProductivityCurve_points.
  repeat constructor.
Qed.

(** C3, as stated: the curve of the 12-week ramp does not reach 100% on
    the timeline; its last point, at week 12, is 75. *)
Lemma juniorCurve_stops_short :
  juniorCurve !! 12%nat = Some (num 75) /\ ~ reaches_full juniorCurve.
Proof.
  split; [exact juniorCurve_last|].
  intros (week & Hw & E).
  pose proof juniorCurve_below_full as B.
  rewrite Forall_lookup in B. specialize (B week (num 100) E).
  discriminate B.
Qed.

(** C3, amended: for every positive rampUpWeeks the curve has exactly 13
    points, for weeks 0 to 12; the points of weeks 0, 1 and 2 are 0; the
    point of a week w >= 3 is min(100, (w - 3) / rampUpWeeks * 100); the
    last point is 100 when rampUpWeeks <= 9.  Of the three curves drawn,
    the 6-week one is at 100% from week 9 and the 9-week one at week 12,
    while the 12-week one stays below 100% and ends at 75. *)
Theorem productivity_curve_shape (rampUpWeeks : Number) :
  ltb (num 0) rampUpWeeks = true ->
  let curve : list Number := generateProductivityCurve rampUpWeeks in
  length curve = 13%nat /\
  curve !! 0%nat = Some (num 0) /\
  curve !! 1%nat = Some (num 0) /\
  curve !! 2%nat = Some (num 0) /\
  (forall week : nat, (3 <= week <= 12)%nat ->
     curve !! week =
       Some (Math_min (num 100)
               (((of_Z (Z.of_nat week) - num 3) / rampUpWeeks) * num 100))) /\
  (leb rampUpWeeks (num 9) = true -> curve !! 12%nat = Some (num 100)) /\
  seniorCurve !! 9%nat = Some (num 100) /\
  mixedCurve !! 12%nat = Some (num 100) /\
  juniorCurve !! 12%nat = Some (num 75) /\
  Forall (fun p => ltb p (num 100) = true) juniorCurve.
Proof.
  intros Hpos curve. subst curve. rewrite generateProductivityCurve_points.
  split; [reflexivity|]. split; [reflexivity|]. split; [reflexivity|].
  split; [reflexivity|]. split; [|split].
  - intros week Hw.
    assert (C : (week = 3 \/ week = 4 \/ week = 5 \/ week = 6 \/ week = 7 \/
                 week = 8 \/ week = 9 \/ week = 10 \/ week = 11 \/ week = 12)%nat)
      by lia.
    repeat (destruct C as [-> | C]; [reflexivity|]). subst week. reflexivity.
  - intros Hle. cbn [lookup list_lookup]. f_equal.
    destruct rampUpWeeks as [|s|q].
    + discriminate Hpos.
    + destruct s; [discriminate Hpos | discriminate Hle].
    + apply ramp_full; [now apply ltb_Fin | now apply leb_Fin].
  - split; [apply seniorCurve_points|]. split; [exact mixedCurve_last|].
    split; [exact juniorCurve_last | exact juniorCurve_below_full].
Qed.

Lemma productivity_curve_shape_witness :
  ltb (num 0) (num 9) = true /\ leb (num 9) (num 9) = true /\
  generateProductivityCurve (num 9) !! 12%nat = Some (num 100).
Proof.
  split; [reflexivity|]. split; [reflexivity|].
  exact (proj1 (proj2 (proj2 (proj2 (proj2 (proj2
           (productivity_curve_shape (num 9) eq_refl)))))) eq_refl).
Defined.

End ChartSpec.

(** ** Further properties of the cost model *)

Module CalculatorProperties.
Import JS Calculator Documented NumberFacts CalculatorFacts.
Local Open Scope js_scope.

(** The hours an event costs, by level: 360 for junior, 300 for mixed and
    240 for senior. *)
Lemma costPerEvent_hours (level : string) :
  valid_level level ->
  exists k : Q,
    (level = "junior" /\ k = 360%Q \/
     level = "mixed" /\ k = 300%Q \/
     level = "senior" /\ k = 240%Q) /\
    forall (h : Qc) (t d : Number),
      costPerEvent (with_inputs (Fin h) t d level) = Fin (Q2Qc k * h)%Qc.
Proof.
  intros [-> | [-> | ->]]; [exists 360%Q | exists 300%Q | exists 240%Q];
    (split; [tauto|]); intros h t d; unfold costPerEvent;
    rewrite idleTimeCost_Fin, onboardingCost_Fin;
    [ rewrite (rampUpCost_Fin h t d "junior" 60 eq_refl)
    | rewrite (rampUpCost_Fin h t d "mixed" 45 eq_refl)
    | rewrite (rampUpCost_Fin h t d "senior" 30 eq_refl) ];
    rewrite !add_Fin; apply Fin_eq; to_Q; ring.
Qed.

Lemma bounded_is_Fin (x lo hi : Number) :
  leb lo x = true -> leb x hi = true -> isFinite lo = true -> isFinite hi = true ->
  exists q : Qc, x = Fin q.
Proof.
  destruct x as [|s|q]; [discriminate| |eauto].
  destruct lo as [| |l], hi as [| |u]; try discriminate.
  destruct s; discriminate.
Qed.

(** X1: For a whole-dollar hourly rate up to 10^9 and event counts between
    0 and 10,000, the components of a party's total add up to the total, and
    savings is the difference of the event counts times the cost of an
    event, whatever the level. *)
Theorem breakdown_adds_up (n : Z) (t d : Number) (level : string) :
  (0 <= n)%Z -> (n <= 10 ^ 9)%Z ->
  let this := with_inputs (of_Z n) t d level in
  leb (num 0) (competitorTurnoverEvents this) = true ->
  leb (competitorTurnoverEvents this) (num 10000) = true ->
  leb (num 0) (inforceTurnoverEvents this) = true ->
  leb (inforceTurnoverEvents this) (num 10000) = true ->
  competitorIdleCost this + competitorOnboardingCost this + competitorRampCost this
    = competitorTotal this /\
  inforceIdleCost this + inforceOnboardingCost this + inforceRampCost this
    = inforceTotal this /\
  savings this
    = (competitorTurnoverEvents this - inforceTurnoverEvents this) * costPerEvent this.
Proof.
  intros H0 Hmax this C0 C1 I0 I1. subst this. unfold of_Z in *.
  destruct (bounded_is_Fin _ _ _ C0 C1 eq_refl eq_refl) as (ec & Ec).
  destruct (bounded_is_Fin _ _ _ I0 I1 eq_refl eq_refl) as (ei & Ei).
  unfold competitorIdleCost, competitorOnboardingCost, competitorRampCost,
    inforceIdleCost, inforceOnboardingCost, inforceRampCost,
    savings, competitorTotal, inforceTotal, costPerEvent.
  rewrite !Ec, !Ei, !idleTimeCost_Fin, !onboardingCost_Fin.
  destruct (valid_level_dec level) as [V | U].
  - destruct (rampUpDays_valid (Fin (Q2Qc (inject_Z n))) t d level V) as (days & _ & E).
    rewrite (rampUpCost_Fin _ _ _ _ _ E).
    rewrite ?sub_Fin, ?add_Fin, ?mul_Fin, ?add_Fin, ?sub_Fin.
    repeat split; apply Fin_eq; to_Q; ring.
  - rewrite (rampUpCost_unknown _ _ _ _ U).
    rewrite ?mul_NaN_r, ?add_NaN_r, ?mul_NaN_r.
    repeat split; reflexivity.
Qed.

Lemma breakdown_adds_up_witness :
  (0 <= 200)%Z /\ (200 <= 10 ^ 9)%Z /\
  leb (num 0) (competitorTurnoverEvents example_inputs) = true /\
  leb (competitorTurnoverEvents example_inputs) (num 10000) = true /\
  leb (num 0) (inforceTurnoverEvents example_inputs) = true /\
  leb (inforceTurnoverEvents example_inputs) (num 10000) = true /\
  competitorIdleCost example_inputs + competitorOnboardingCost example_inputs
    + competitorRampCost example_inputs = competitorTotal example_inputs.
Proof.
  assert (H0 : (0 <= 200)%Z) by lia.
  assert (H1 : (200 <= 10 ^ 9)%Z) by lia.
  split; [exact H0|]. split; [exact H1|].
  split; [reflexivity|]. split; [reflexivity|].
  split; [reflexivity|]. split; [reflexivity|].
  exact (proj1 (breakdown_adds_up 200 (num 12) (num 18) "mixed" H0 H1
                  eq_refl eq_refl eq_refl eq_refl)).
Defined.

Lemma Qc_nonzero (q : Qc) : q <> 0%Qc -> ~ (q == 0)%Q.
Proof. intros N E. apply N. now apply Qc_is_canon. Qed.

(** The values of the main getters for finite inputs and a valid level, in
    terms of the two event counts and the hours an event costs. *)
Lemma model_values (h t d : Qc) (level : string) :
  valid_level level ->
  let this := with_inputs (Fin h) (Fin t) (Fin d) level in
  exists (nc ni : Z) (k : Q),
    (k = 360%Q \/ k = 300%Q \/ k = 240%Q) /\
    nc = Qfloor (Q2Qc 0.30 * t * (d / Q2Qc 12) + Q2Qc (1 # 2))%Qc /\
    ni = Qfloor (Q2Qc 0.05 * t * (d / Q2Qc 12) + Q2Qc (1 # 2))%Qc /\
    competitorTurnoverEvents this = of_Z nc /\
    inforceTurnoverEvents this = of_Z ni /\
    costPerEvent this = Fin (Q2Qc k * h)%Qc /\
    competitorTotal this = Fin (Q2Qc (inject_Z nc) * (Q2Qc k * h))%Qc /\
    inforceTotal this = Fin (Q2Qc (inject_Z ni) * (Q2Qc k * h))%Qc /\
    savings this =
      Fin (Q2Qc (inject_Z nc) * (Q2Qc k * h) - Q2Qc (inject_Z ni) * (Q2Qc k * h))%Qc.
Proof.
  intros V this. subst this.
  destruct (costPerEvent_hours level V) as (k & Hk & K).
  eexists _, _, k. split; [tauto|]. split; [reflexivity|]. split; [reflexivity|].
  unfold savings, competitorTotal, inforceTotal.
  rewrite !K, !competitorTurnoverEvents_Fin, !inforceTurnoverEvents_Fin.
  repeat split; reflexivity.
Qed.

(** The percentage for a non-zero finite cost per event, from the event
    counts alone. *)
Lemma savingsPercentage_closed (this : calc) (c ec ei : Qc) :
  costPerEvent this = Fin c -> c <> 0%Qc ->
  competitorTurnoverEvents this = Fin ec ->
  inforceTurnoverEvents this = Fin ei ->
  savingsPercentage this =
    if is_zero ec then num 0 else Fin ((ec - ei) / ec * Q2Qc 100)%Qc.
Proof.
  intros C Hc Ec Ei.
  assert (Hc' : ~ (c == 0)%Q) by now apply Qc_nonzero.
  unfold savingsPercentage, savings, competitorTotal, inforceTotal.
  rewrite C, Ec, Ei, !mul_Fin, strict_equals_zero.
  destruct (is_zero ec) eqn:Z0.
  - apply is_zero_true in Z0. subst ec.
    assert (Z1 : is_zero (0 * c)%Qc = true) by (apply is_zero_true; Qc_eq; ring).
    now rewrite Z1.
  - assert (He : ~ (ec == 0)%Q) by (apply Qc_nonzero; now apply is_zero_false).
    assert (ZF : is_zero (ec * c)%Qc = false).
    { apply is_zero_false. intros X.
      assert (X' : ((ec * c)%Qc == 0)%Q) by now rewrite X.
      to_Q_in X'. apply Qmult_integral in X' as [X' | X']; tauto. }
    rewrite ZF, sub_Fin, (div_Fin _ _ ZF). unfold num. rewrite mul_Fin.
    apply Fin_eq. to_Q. field. tauto.
Qed.

Lemma whole_dollar_cost (n : Z) (t d : Number) (level : string) :
  valid_level level -> (1 <= n)%Z ->
  exists c : Qc, c <> 0%Qc /\ costPerEvent (with_inputs (of_Z n) t d level) = Fin c.
Proof.
  intros V Hn. destruct (costPerEvent_hours level V) as (k & Hk & K).
  exists (Q2Qc k * Q2Qc (inject_Z n))%Qc. split; [|apply K].
  intros X. assert (X' : ((Q2Qc k * Q2Qc (inject_Z n))%Qc == 0)%Q) by now rewrite X.
  to_Q_in X'. apply Qmult_integral in X' as [X' | X'].
  - destruct Hk as [[_ ->] | [[_ ->] | [_ ->]]]; discriminate X'.
  - unfold Qeq in X'. cbn in X'. lia.
Qed.

(** X2: For whole-dollar hourly rates from 1 to 10^9, valid levels and event
    counts between 0 and 10,000, the savings percentage depends on the team
    size and the duration only: neither the rate nor the level changes it. *)
Theorem savingsPercentage_ignores_rate_and_level
    (n n' : Z) (t d : Number) (level level' : string) :
  valid_level level -> valid_level level' ->
  (1 <= n)%Z -> (n <= 10 ^ 9)%Z -> (1 <= n')%Z -> (n' <= 10 ^ 9)%Z ->
  let this := with_inputs (of_Z n) t d level in
  leb (num 0) (competitorTurnoverEvents this) = true ->
  leb (competitorTurnoverEvents this) (num 10000) = true ->
  leb (num 0) (inforceTurnoverEvents this) = true ->
  leb (inforceTurnoverEvents this) (num 10000) = true ->
  savingsPercentage this = savingsPercentage (with_inputs (of_Z n') t d level').
Proof.
  intros V V' Hn _ Hn' _ this C0 C1 I0 I1. subst this.
  destruct (bounded_is_Fin _ _ _ C0 C1 eq_refl eq_refl) as (ec & Ec).
  destruct (bounded_is_Fin _ _ _ I0 I1 eq_refl eq_refl) as (ei & Ei).
  destruct (whole_dollar_cost n t d level V Hn) as (c & Hc & C).
  destruct (whole_dollar_cost n' t d level' V' Hn') as (c' & Hc' & C').
  rewrite (savingsPercentage_closed _ c ec ei C Hc Ec Ei).
  now rewrite (savingsPercentage_closed _ c' ec ei C' Hc' Ec Ei).
Qed.

Lemma savingsPercentage_ignores_rate_and_level_witness :
  valid_level "junior" /\ valid_level "senior" /\
  (1 <= 150)%Z /\ (150 <= 10 ^ 9)%Z /\ (1 <= 350)%Z /\ (350 <= 10 ^ 9)%Z /\
  leb (competitorTurnoverEvents (with_inputs (num 150) (num 30) (num 36) "junior"))
      (num 10000) = true /\
  savingsPercentage (with_inputs (num 150) (num 30) (num 36) "junior") =
  savingsPercentage (with_inputs (num 350) (num 30) (num 36) "senior").
Proof.
  assert (V : valid_level "junior") by (left; reflexivity).
  assert (V' : valid_level "senior") by (right; right; reflexivity).
  assert (H1 : (1 <= 150)%Z) by lia.
  assert (H2 : (150 <= 10 ^ 9)%Z) by lia.
  assert (H3 : (1 <= 350)%Z) by lia.
  assert (H4 : (350 <= 10 ^ 9)%Z) by lia.
  split; [exact V|]. split; [exact V'|]. split; [exact H1|]. split; [exact H2|].
  split; [exact H3|]. split; [exact H4|]. split; [reflexivity|].
  exact (savingsPercentage_ignores_rate_and_level 150 350 (num 30) (num 36)
           "junior" "senior" V V' H1 H2 H3 H4 eq_refl eq_refl eq_refl eq_refl).
Defined.

(** X3: When costPerEvent and the competitor event count are finite numbers,
    the division guard of savingsPercentage fires in two cases only: the
    hourly rate is 0, or the competitor has no event. *)
Theorem guard_fires_iff (h t d : Number) (level : string) :
  let this := with_inputs h t d level in
  isFinite (costPerEvent this) = true ->
  isFinite (competitorTurnoverEvents this) = true ->
  ((competitorTotal this === num 0) = true <->
   ((h === num 0) = true \/ (competitorTurnoverEvents this === num 0) = true)).
Proof.
  intros this Fc Fe. subst this.
  destruct (finite_cost_inputs h t d level Fc) as (V & h' & ->).
  destruct (costPerEvent_hours level V) as (k & Hk & K).
  assert (Hk' : ~ (k == 0)%Q)
    by (destruct Hk as [[_ ->] | [[_ ->] | [_ ->]]]; discriminate).
  destruct (isFinite_Fin _ Fe) as (e & E).
  unfold competitorTotal. rewrite K, E, mul_Fin, !strict_equals_zero, !is_zero_true.
  split.
  - intros X.
    assert (X' : ((e * (Q2Qc k * h'))%Qc == 0)%Q) by now rewrite X.
    to_Q_in X'. apply Qmult_integral in X' as [X' | X'].
    + right. now apply Qc_is_canon.
    + apply Qmult_integral in X' as [X' | X']; [tauto|].
      left. now apply Qc_is_canon.
  - intros [-> | ->]; Qc_eq; ring.
Qed.

Lemma guard_fires_iff_witness :
  isFinite (costPerEvent (with_inputs (num 0) (num 12) (num 18) "mixed")) = true /\
  isFinite (competitorTurnoverEvents (with_inputs (num 0) (num 12) (num 18) "mixed"))
    = true /\
  (competitorTotal (with_inputs (num 0) (num 12) (num 18) "mixed") === num 0) = true /\
  competitorTurnoverEvents (with_inputs (num 0) (num 12) (num 18) "mixed") = num 5.
Proof.
  split; [reflexivity|]. split; [reflexivity|]. split.
  - apply (proj2 (guard_fires_iff (num 0) (num 12) (num 18) "mixed" eq_refl eq_refl)).
    left. reflexivity.
  - vm_compute. apply Fin_eq. reflexivity.
Defined.

(** X4: For a whole-dollar hourly rate from 1 to 10^9, a valid level, between
    1 and 10,000 competitor events and between 0 and 10,000 InForce events,
    the calculator reports savings of 100% exactly when the InForce event
    count is 0. *)
Theorem full_savings_iff_no_inforce_event (n : Z) (t d : Number) (level : string) :
  valid_level level -> (1 <= n)%Z -> (n <= 10 ^ 9)%Z ->
  let this := with_inputs (of_Z n) t d level in
  leb (num 1) (competitorTurnoverEvents this) = true ->
  leb (competitorTurnoverEvents this) (num 10000) = true ->
  leb (num 0) (inforceTurnoverEvents this) = true ->
  leb (inforceTurnoverEvents this) (num 10000) = true ->
  ((savingsPercentage this === num 100) = true <->
   (inforceTurnoverEvents this === num 0) = true).
Proof.
  intros V Hn _ this C0 C1 I0 I1. subst this.
  destruct (bounded_is_Fin _ _ _ C0 C1 eq_refl eq_refl) as (ec & Ec).
  destruct (bounded_is_Fin _ _ _ I0 I1 eq_refl eq_refl) as (ei & Ei).
  destruct (whole_dollar_cost n t d level V Hn) as (c & Hc & C).
  rewrite (savingsPercentage_closed _ c ec ei C Hc Ec Ei).
  rewrite Ec in C0. rewrite Ei.
  assert (Nz : is_zero ec = false).
  { apply is_zero_false. intros X. rewrite X in C0. discriminate C0. }
  apply leb_Fin in C0.
  assert (C0' : (1 <= ec)%Q) by (to_Q_in C0; exact C0).
  rewrite Nz, strict_equals_zero, is_zero_true.
  unfold num. cbn [strict_equals]. rewrite Qeq_bool_iff.
  assert (T : (((ec - ei) / ec * Q2Qc 100)%Qc == (ec - ei) / ec * 100)%Q)
    by (to_Q; reflexivity).
  rewrite T. cbn [this Q2Qc]. change (Qred 100) with 100%Q.
  assert (F : ((ec - ei) / ec * ec == ec - ei)%Q) by (field; lra).
  split.
  - intros E. apply Qc_is_canon. change (this 0%Qc) with 0%Q.
    set (y := ((ec - ei) / ec)%Q) in *.
    assert (Y : (y == 1)%Q) by lra. rewrite Y in F. lra.
  - intros ->. change (this 0%Qc) with 0%Q.
    assert (Y : ((ec - 0) / ec == 1)%Q) by (field; lra).
    rewrite Y. reflexivity.
Qed.

Lemma full_savings_iff_no_inforce_event_witness :
  valid_level "mixed" /\ (1 <= 200)%Z /\ (200 <= 10 ^ 9)%Z /\
  leb (num 1) (competitorTurnoverEvents (small_team 200)) = true /\
  (inforceTurnoverEvents (small_team 200) === num 0) = true /\
  (savingsPercentage (small_team 200) === num 100) = true.
Proof.
  assert (V : valid_level "mixed") by (right; left; reflexivity).
  assert (H1 : (1 <= 200)%Z) by lia.
  assert (H2 : (200 <= 10 ^ 9)%Z) by lia.
  split; [exact V|]. split; [exact H1|]. split; [exact H2|].
  split; [reflexivity|]. split; [reflexivity|].
  apply (proj2 (full_savings_iff_no_inforce_event 200 (num 5) (num 6) "mixed"
                  V H1 H2 eq_refl eq_refl eq_refl eq_refl)).
  reflexivity.
Defined.

(** X5: A larger team or a longer project never lowers an event count: the
    counts are monotone in teamSize and projectDuration on non-negative
    inputs. *)
Theorem events_grow_with_team_and_duration
    (h h' : Number) (t t' d d' : Qc) (level level' : string) :
  (0 <= t)%Qc -> (t <= t')%Qc -> (0 <= d)%Qc -> (d <= d')%Qc ->
  let small := with_inputs h (Fin t) (Fin d) level in
  let large := with_inputs h' (Fin t') (Fin d') level' in
  leb (competitorTurnoverEvents small) (competitorTurnoverEvents large) = true /\
  leb (inforceTurnoverEvents small) (inforceTurnoverEvents large) = true.
Proof.
  intros Ht Htt Hd Hdd small large. subst small large.
  assert (Ht' : (0 <= t)%Q) by exact Ht.
  assert (Htt' : (t <= t')%Q) by exact Htt.
  assert (Hd' : (0 <= d)%Q) by exact Hd.
  assert (Hdd' : (d <= d')%Q) by exact Hdd.
  assert (P : (t * d <= t' * d')%Q).
  { apply Qle_trans with (t' * d)%Q.
    - now apply Qmult_le_compat_r.
    - rewrite (Qmult_comm t' d), (Qmult_comm t' d').
      apply Qmult_le_compat_r; lra. }
  rewrite !competitorTurnoverEvents_Fin, !inforceTurnoverEvents_Fin, !leb_of_Z.
  assert (E : forall (r : Q) (a b : Qc),
             ((Q2Qc r * a * (b / Q2Qc 12) + Q2Qc (1 # 2))%Qc ==
              (r / 12) * (a * b) + (1 # 2))%Q) by (intros; to_Q; field).
  split; apply Qfloor_resp_le; rewrite !E.
  - assert ((0.30 / 12) * (t * d) <= (0.30 / 12) * (t' * d'))%Q
      by (apply Qmult_le_l; [reflexivity | exact P]).
    lra.
  - assert ((0.05 / 12) * (t * d) <= (0.05 / 12) * (t' * d'))%Q
      by (apply Qmult_le_l; [reflexivity | exact P]).
    lra.
Qed.

Lemma events_grow_with_team_and_duration_witness :
  (0 <= Q2Qc 5)%Qc /\ (Q2Qc 5 <= Q2Qc 30)%Qc /\
  (0 <= Q2Qc 6)%Qc /\ (Q2Qc 6 <= Q2Qc 36)%Qc /\
  leb (competitorTurnoverEvents (with_inputs (num 200) (num 5) (num 6) "mixed"))
      (competitorTurnoverEvents (with_inputs (num 200) (num 30) (num 36) "mixed"))
    = true.
Proof.
  assert (H1 : (0 <= Q2Qc 5)%Qc) by discriminate.
  assert (H2 : (Q2Qc 5 <= Q2Qc 30)%Qc) by discriminate.
  assert (H3 : (0 <= Q2Qc 6)%Qc) by discriminate.
  assert (H4 : (Q2Qc 6 <= Q2Qc 36)%Qc) by discriminate.
  split; [exact H1|]. split; [exact H2|]. split; [exact H3|]. split; [exact H4|].
  exact (proj1 (events_grow_with_team_and_duration (num 200) (num 200)
                  (Q2Qc 5) (Q2Qc 30) (Q2Qc 6) (Q2Qc 36) "mixed" "mixed" H1 H2 H3 H4)).
Defined.

Lemma costPerEvent_junior (h : Qc) (t d : Number) :
  costPerEvent (with_inputs (Fin h) t d "junior") = Fin (Q2Qc 360 * h)%Qc.
Proof.
  destruct (costPerEvent_hours "junior") as (k & Hk & K); [left; reflexivity|].
  destruct Hk as [[_ ->] | [[X _] | [X _]]]; [apply K | discriminate X | discriminate X].
Qed.

Lemma costPerEvent_mixed (h : Qc) (t d : Number) :
  costPerEvent (with_inputs (Fin h) t d "mixed") = Fin (Q2Qc 300 * h)%Qc.
Proof.
  destruct (costPerEvent_hours "mixed") as (k & Hk & K); [right; left; reflexivity|].
  destruct Hk as [[X _] | [[_ ->] | [X _]]]; [discriminate X | apply K | discriminate X].
Qed.

Lemma costPerEvent_senior (h : Qc) (t d : Number) :
  costPerEvent (with_inputs (Fin h) t d "senior") = Fin (Q2Qc 240 * h)%Qc.
Proof.
  destruct (costPerEvent_hours "senior") as (k & Hk & K); [right; right; reflexivity|].
  destruct Hk as [[X _] | [[X _] | [_ ->]]]; [discriminate X | discriminate X | apply K].
Qed.

(** The order of the levels for a finite rate of the model. *)
Lemma cost_orders_on_finite_rate (h : Qc) (t d : Number) :
  (0 < h)%Qc ->
  let at_level := with_inputs (Fin h) t d in
  ltb (rampUpCost (at_level "senior")) (rampUpCost (at_level "mixed")) = true /\
  ltb (rampUpCost (at_level "mixed")) (rampUpCost (at_level "junior")) = true /\
  ltb (costPerEvent (at_level "senior")) (costPerEvent (at_level "mixed")) = true /\
  ltb (costPerEvent (at_level "mixed")) (costPerEvent (at_level "junior")) = true.
Proof.
  intros Hh at_level. subst at_level. assert (Hh' : (0 < h)%Q) by exact Hh.
  rewrite (rampUpCost_Fin h t d "junior" 60 eq_refl),
    (rampUpCost_Fin h t d "mixed" 45 eq_refl),
    (rampUpCost_Fin h t d "senior" 30 eq_refl),
    costPerEvent_junior, costPerEvent_mixed, costPerEvent_senior.
  repeat split; apply ltb_Fin; to_Q; lra.
Qed.

(** X6: For a positive hourly rate whose junior costPerEvent is a finite number,
    the more experienced the level the cheaper the ramp-up and the event:
    senior < mixed < junior, strictly. *)
Theorem experience_orders_costs (h t d : Number) :
  ltb (num 0) h = true ->
  let at_level := with_inputs h t d in
  isFinite (costPerEvent (at_level "junior")) = true ->
  ltb (rampUpCost (at_level "senior")) (rampUpCost (at_level "mixed")) = true /\
  ltb (rampUpCost (at_level "mixed")) (rampUpCost (at_level "junior")) = true /\
  ltb (costPerEvent (at_level "senior")) (costPerEvent (at_level "mixed")) = true /\
  ltb (costPerEvent (at_level "mixed")) (costPerEvent (at_level "junior")) = true.
Proof.
  intros Hh at_level F. subst at_level.
  destruct (finite_cost_inputs h t d "junior" F) as (_ & h' & ->).
  apply cost_orders_on_finite_rate. now apply ltb_Fin in Hh.
Qed.

Lemma experience_orders_costs_witness :
  ltb (num 0) (num 200) = true /\
  isFinite (costPerEvent (with_inputs (num 200) (num 12) (num 18) "junior")) = true /\
  ltb (costPerEvent (with_inputs (num 200) (num 12) (num 18) "senior"))
      (costPerEvent (with_inputs (num 200) (num 12) (num 18) "mixed")) = true.
Proof.
  split; [reflexivity|]. split; [reflexivity|].
  exact (proj1 (proj2 (proj2
           (experience_orders_costs (num 200) (num 12) (num 18) eq_refl eq_refl)))).
Defined.

Lemma nonneg_Fin (q : Qc) : (0 <= q)%Q -> leb (num 0) (Fin q) = true.
Proof. intros H. apply leb_Fin. exact H. Qed.

Lemma nonneg_mul (x y : Number) :
  isFinite x = true /\ leb (num 0) x = true ->
  isFinite y = true /\ leb (num 0) y = true ->
  isFinite (x * y) = true /\ leb (num 0) (x * y) = true.
Proof.
  destruct x as [| |a], y as [| |b]; intros [Fx Hx] [Fy Hy]; try discriminate.
  split; [reflexivity|]. rewrite mul_Fin.
  apply leb_Fin in Hx, Hy. apply nonneg_Fin. to_Q.
  apply Qmult_le_0_compat; [exact Hx | exact Hy].
Qed.

(** The bounds of savings and savingsPercentage on the model's finite
    non-negative values. *)
Lemma savings_bounds (h t d : Qc) (level : string) :
  (0 <= h)%Qc -> (0 <= t)%Qc -> (0 <= d)%Qc -> valid_level level ->
  let this := with_inputs (Fin h) (Fin t) (Fin d) level in
  leb (num 0) (savings this) = true /\
  leb (savings this) (competitorTotal this) = true /\
  leb (num 0) (savingsPercentage this) = true /\
  leb (savingsPercentage this) (num 100) = true.
Proof.
  intros Hh Ht Hd V this. subst this.
  destruct (model_values h t d level V)
    as (nc & ni & k & Hk & Enc & Eni & _ & _ & _ & Tc & Ti & S).
  destruct (CalculatorSpec.events_ordered t d Ht Hd) as (Hi0 & Hic).
  rewrite <- Enc, <- Eni in *. clear Enc Eni.
  assert (Hk' : (0 < k)%Q) by (destruct Hk as [-> | [-> | ->]]; reflexivity).
  assert (Hh' : (0 <= h)%Q) by exact Hh.
  assert (HK : (0 <= k * h)%Q) by (apply Qmult_le_0_compat; lra).
  assert (Qi0 : (0 <= inject_Z ni)%Q)
    by (change 0%Q with (inject_Z 0); now rewrite <- Zle_Qle).
  assert (Qic : (inject_Z ni <= inject_Z nc)%Q) by now rewrite <- Zle_Qle.
  assert (HI : (0 <= inject_Z ni * (k * h))%Q) by now apply Qmult_le_0_compat.
  assert (HT : (inject_Z ni * (k * h) <= inject_Z nc * (k * h))%Q)
    by now apply Qmult_le_compat_r.
  unfold savingsPercentage. rewrite S, Tc, strict_equals_zero.
  split; [apply nonneg_Fin; to_Q; lra|].
  split; [apply leb_Fin; to_Q; lra|].
  destruct (is_zero (Q2Qc (inject_Z nc) * (Q2Qc k * h))%Qc) eqn:Z.
  - split; reflexivity.
  - rewrite div_Fin by exact Z. unfold num. rewrite mul_Fin.
    assert (NZ : ~ (inject_Z nc * (k * h) == 0)%Q).
    { intros X. apply is_zero_false in Z. apply Z. Qc_eq. exact X. }
    destruct (CalculatorSpec.percent_bounds _ _ HI HT NZ) as (P0 & P1).
    split; apply leb_Fin; to_Q; [exact P0 | exact P1].
Qed.

(** Signs on the model's finite non-negative values, where nothing overflows. *)
Lemma non_negative_on_finite_inputs (h t d : Qc) (level : string) :
  (0 <= h)%Qc -> (0 <= t)%Qc -> (0 <= d)%Qc -> valid_level level ->
  Forall (fun g => leb (num 0) (g.2 (with_inputs (Fin h) (Fin t) (Fin d) level)) = true)
    numeric_getters.
Proof.
  intros Hh Ht Hd V. set (this := with_inputs (Fin h) (Fin t) (Fin d) level).
  assert (Hh' : (0 <= h)%Q) by exact Hh.
  assert (Ht' : (0 <= t)%Q) by exact Ht.
  assert (Hd' : (0 <= d)%Q) by exact Hd.
  destruct (CalculatorSpec.events_ordered t d Ht Hd) as (Hi0 & Hic).
  destruct (rampUpDays_valid (Fin h) (Fin t) (Fin d) level V) as (days & Hdays & E).
  assert (D0 : (0 <= days)%Q) by (destruct Hdays as [[_ ->] | [[_ ->] | [_ ->]]]; discriminate).
  assert (Nidle : isFinite (idleTimeCost this) = true /\ leb (num 0) (idleTimeCost this) = true).
  { unfold this. rewrite idleTimeCost_Fin. split; [reflexivity|].
    apply nonneg_Fin. to_Q. lra. }
  assert (Nonb : isFinite (onboardingCost this) = true /\ leb (num 0) (onboardingCost this) = true).
  { unfold this. rewrite onboardingCost_Fin. split; [reflexivity|].
    apply nonneg_Fin. to_Q. lra. }
  assert (Nramp : isFinite (rampUpCost this) = true /\ leb (num 0) (rampUpCost this) = true).
  { unfold this. rewrite (rampUpCost_Fin _ _ _ _ _ E). split; [reflexivity|].
    apply nonneg_Fin. to_Q. apply Qmult_le_0_compat; lra. }
  assert (Nec : isFinite (competitorTurnoverEvents this) = true /\
                leb (num 0) (competitorTurnoverEvents this) = true).
  { unfold this. rewrite competitorTurnoverEvents_Fin. split; [reflexivity|].
    change (num 0) with (of_Z 0). apply leb_of_Z. lia. }
  assert (Nei : isFinite (inforceTurnoverEvents this) = true /\
                leb (num 0) (inforceTurnoverEvents this) = true).
  { unfold this. rewrite inforceTurnoverEvents_Fin. split; [reflexivity|].
    change (num 0) with (of_Z 0). now apply leb_of_Z. }
  assert (Ncost : isFinite (costPerEvent this) = true /\ leb (num 0) (costPerEvent this) = true).
  { destruct (costPerEvent_hours level V) as (k & Hk & K). unfold this. rewrite K.
    split; [reflexivity|]. apply nonneg_Fin. to_Q.
    apply Qmult_le_0_compat; [|exact Hh'].
    destruct Hk as [[_ ->] | [[_ ->] | [_ ->]]]; discriminate. }
  destruct (savings_bounds h t d level Hh Ht Hd V) as (S0 & _ & P0 & _).
  fold this in S0, P0.
  assert (Nbudget : leb (num 0) (projectBudget this) = true).
  { unfold this, projectBudget, hoursPerWeek, num.
    cbn [hourlyRate teamSize projectDuration with_inputs].
    rewrite !mul_Fin. apply nonneg_Fin. to_Q.
    repeat apply Qmult_le_0_compat; lra. }
  unfold numeric_getters.
  repeat (apply Forall_cons; split; [cbn [snd]|]); try apply Forall_nil;
    first [ reflexivity
          | assumption
          | tauto
          | apply nonneg_mul; assumption
          | now apply leb_Fin ].
Qed.

(** X9: On non-negative inputs with a valid level, when competitorTotal and
    projectBudget are finite numbers, no numeric getter returns a negative
    number (or NaN): event counts, cost components, totals, savings, the
    percentage and the project budget are all at least 0. *)
Theorem getters_non_negative (h t d : Number) (level : string) :
  leb (num 0) h = true -> leb (num 0) t = true -> leb (num 0) d = true ->
  valid_level level ->
  let this := with_inputs h t d level in
  isFinite (competitorTotal this) = true ->
  isFinite (projectBudget this) = true ->
  Forall (fun g => leb (num 0) (g.2 this) = true) numeric_getters.
Proof.
  intros Hh Ht Hd V this F _. subst this.
  destruct (finite_total_inputs h t d level F)
    as (_ & h' & t' & d' & -> & -> & ->).
  apply non_negative_on_finite_inputs; [now apply nonneg_of_leb .. | exact V].
Qed.

Lemma getters_non_negative_witness :
  leb (num 0) (num 150) = true /\ leb (num 0) (num 30) = true /\
  leb (num 0) (num 36) = true /\ valid_level "junior" /\
  isFinite (competitorTotal (with_inputs (num 150) (num 30) (num 36) "junior")) = true /\
  isFinite (projectBudget (with_inputs (num 150) (num 30) (num 36) "junior")) = true /\
  ltb (num 0) (savings (with_inputs (num 150) (num 30) (num 36) "junior")) = true /\
  leb (num 0) (savings (with_inputs (num 150) (num 30) (num 36) "junior")) = true.
Proof.
  assert (V : valid_level "junior") by (left; reflexivity).
  split; [reflexivity|]. split; [reflexivity|]. split; [reflexivity|].
  split; [exact V|]. split; [reflexivity|]. split; [reflexivity|].
  split; [reflexivity|].
  pose proof (getters_non_negative (num 150) (num 30) (num 36) "junior"
                eq_refl eq_refl eq_refl V eq_refl eq_refl) as F.
  exact (proj1 (Forall_lookup _ _) F 11%nat ("savings", savings) eq_refl).
Defined.

Lemma budget_bound (n k h td : Q) :
  (n == 0 \/ 1 <= n)%Q -> (n <= (1 # 40) * td + (1 # 2))%Q ->
  (0 < k)%Q -> (k <= 360)%Q -> (0 <= h)%Q -> (0 <= td)%Q ->
  (n * (k * h) <= (1732 # 10) * (td * h))%Q.
Proof.
  intros [N0 | N1] Hn Hk Hk' Hh Htd.
  - rewrite N0. assert (0 <= td * h)%Q by now apply Qmult_le_0_compat. lra.
  - assert (T : (20 <= td)%Q) by lra.
    assert (A : (k * n <= 360 * n)%Q) by (apply Qmult_le_compat_r; lra).
    assert (B : (k * n <= 18 * td)%Q) by lra.
    assert (C : (k * n * h <= 18 * td * h)%Q) by now apply Qmult_le_compat_r.
    assert (D : (18 * td * h <= (1732 # 10) * td * h)%Q)
      by (apply Qmult_le_compat_r; lra).
    lra.
Qed.

(** The budget bound on the model's finite values, where nothing overflows. *)
Lemma within_budget_on_finite_inputs (h t d : Qc) (level : string) :
  (0 <= h)%Qc -> (0 <= t)%Qc -> (0 <= d)%Qc -> valid_level level ->
  let this := with_inputs (Fin h) (Fin t) (Fin d) level in
  leb (competitorTotal this) (projectBudget this) = true /\
  leb (savings this) (projectBudget this) = true.
Proof.
  intros Hh Ht Hd V this. subst this.
  destruct (savings_bounds h t d level Hh Ht Hd V) as (_ & SC & _ & _).
  destruct (model_values h t d level V)
    as (nc & ni & k & Hk & Enc & _ & _ & _ & _ & Tc & _ & S).
  destruct (CalculatorSpec.events_ordered t d Ht Hd) as (Hi0 & Hic).
  rewrite <- Enc in Hic.
  assert (Hh' : (0 <= h)%Q) by exact Hh.
  assert (Ht' : (0 <= t)%Q) by exact Ht.
  assert (Hd' : (0 <= d)%Q) by exact Hd.
  assert (Htd : (0 <= t * d)%Q) by now apply Qmult_le_0_compat.
  assert (Hn : (inject_Z nc <= (1 # 40) * (t * d) + (1 # 2))%Q).
  { rewrite Enc.
    assert (E : ((Q2Qc 0.30 * t * (d / Q2Qc 12) + Q2Qc (1 # 2))%Qc ==
                 (1 # 40) * (t * d) + (1 # 2))%Q) by (to_Q; field).
    rewrite <- E. apply Qfloor_le. }
  assert (Hn01 : (inject_Z nc == 0 \/ 1 <= inject_Z nc)%Q).
  { destruct (Z.eq_dec nc 0%Z) as [-> | N]; [left; reflexivity|].
    right. change 1%Q with (inject_Z 1). rewrite <- Zle_Qle. lia. }
  assert (Hk1 : (0 < k)%Q) by (destruct Hk as [-> | [-> | ->]]; reflexivity).
  assert (Hk2 : (k <= 360)%Q) by (destruct Hk as [-> | [-> | ->]]; discriminate).
  pose proof (budget_bound _ _ _ _ Hn01 Hn Hk1 Hk2 Hh' Htd) as Bd.
  assert (Bg : projectBudget (with_inputs (Fin h) (Fin t) (Fin d) level) =
               Fin (t * Q2Qc 40 * (d * Q2Qc 4.33) * h)%Qc) by reflexivity.
  assert (L : leb (competitorTotal (with_inputs (Fin h) (Fin t) (Fin d) level))
                  (projectBudget (with_inputs (Fin h) (Fin t) (Fin d) level)) = true).
  { rewrite Tc, Bg. apply leb_Fin. to_Q.
    assert (R : (t * 40 * (d * 4.33) * h == (1732 # 10) * (t * d * h))%Q) by ring.
    rewrite R. exact Bd. }
  split; [exact L|].
  rewrite S, Bg. rewrite S, Tc in SC. rewrite Tc, Bg in L.
  apply leb_Fin in SC, L. apply leb_Fin.
  eapply Qle_trans; [exact SC | exact L].
Qed.

(** X10: On non-negative inputs with a valid level, when competitorTotal and
    projectBudget are finite numbers, the competitor's turnover cost, and with
    it the savings, never exceeds the project budget. *)
Theorem turnover_cost_within_budget (h t d : Number) (level : string) :
  leb (num 0) h = true -> leb (num 0) t = true -> leb (num 0) d = true ->
  valid_level level ->
  let this := with_inputs h t d level in
  isFinite (competitorTotal this) = true ->
  isFinite (projectBudget this) = true ->
  leb (competitorTotal this) (projectBudget this) = true /\
  leb (savings this) (projectBudget this) = true.
Proof.
  intros Hh Ht Hd V this F _. subst this.
  destruct (finite_total_inputs h t d level F)
    as (_ & h' & t' & d' & -> & -> & ->).
  apply within_budget_on_finite_inputs; [now apply nonneg_of_leb .. | exact V].
Qed.

Lemma turnover_cost_within_budget_witness :
  leb (num 0) (num 350) = true /\ leb (num 0) (num 30) = true /\
  leb (num 0) (num 36) = true /\ valid_level "junior" /\
  isFinite (competitorTotal (with_inputs (num 350) (num 30) (num 36) "junior")) = true /\
  isFinite (projectBudget (with_inputs (num 350) (num 30) (num 36) "junior")) = true /\
  leb (competitorTotal (with_inputs (num 350) (num 30) (num 36) "junior"))
      (projectBudget (with_inputs (num 350) (num 30) (num 36) "junior")) = true.
Proof.
  assert (V : valid_level "junior") by (left; reflexivity).
  split; [reflexivity|]. split; [reflexivity|]. split; [reflexivity|].
  split; [exact V|]. split; [reflexivity|]. split; [reflexivity|].
  exact (proj1 (turnover_cost_within_budget (num 350) (num 30) (num 36) "junior"
                  eq_refl eq_refl eq_refl V eq_refl eq_refl)).
Defined.

(** The order of the levels on the model's finite values. *)
Lemma level_orders_on_finite_inputs (h t d : Qc) :
  (0 <= h)%Qc -> (0 <= t)%Qc -> (0 <= d)%Qc ->
  let at_level := with_inputs (Fin h) (Fin t) (Fin d) in
  (leb (competitorTotal (at_level "senior")) (competitorTotal (at_level "mixed")) = true /\
   leb (competitorTotal (at_level "mixed")) (competitorTotal (at_level "junior")) = true) /\
  (leb (inforceTotal (at_level "senior")) (inforceTotal (at_level "mixed")) = true /\
   leb (inforceTotal (at_level "mixed")) (inforceTotal (at_level "junior")) = true) /\
  (leb (savings (at_level "senior")) (savings (at_level "mixed")) = true /\
   leb (savings (at_level "mixed")) (savings (at_level "junior")) = true).
Proof.
  intros Hh Ht Hd at_level. subst at_level.
  destruct (CalculatorSpec.events_ordered t d Ht Hd) as (Hi0 & Hic).
  unfold savings, competitorTotal, inforceTotal.
  rewrite !costPerEvent_junior, !costPerEvent_mixed, !costPerEvent_senior,
    !competitorTurnoverEvents_Fin, !inforceTurnoverEvents_Fin.
  set (nc := Qfloor (Q2Qc 0.30 * t * (d / Q2Qc 12) + Q2Qc (1 # 2))%Qc) in *.
  set (ni := Qfloor (Q2Qc 0.05 * t * (d / Q2Qc 12) + Q2Qc (1 # 2))%Qc) in *.
  clearbody nc ni.
  assert (Hh' : (0 <= h)%Q) by exact Hh.
  assert (Qi0 : (0 <= inject_Z ni)%Q)
    by (change 0%Q with (inject_Z 0); now rewrite <- Zle_Qle).
  assert (Qic : (inject_Z ni <= inject_Z nc)%Q) by now rewrite <- Zle_Qle.
  assert (M0 : (0 <= inject_Z ni * h)%Q) by (apply Qmult_le_0_compat; lra).
  assert (M1 : (0 <= inject_Z nc * h)%Q) by (apply Qmult_le_0_compat; lra).
  assert (M2 : (0 <= (inject_Z nc - inject_Z ni) * h)%Q)
    by (apply Qmult_le_0_compat; lra).
  unfold of_Z. rewrite !mul_Fin, !sub_Fin.
  repeat split; apply leb_Fin; to_Q; lra.
Qed.

(** X7: On non-negative inputs whose junior competitorTotal is a finite number
    the two totals follow the levels: senior gives the smallest figure and
    junior the largest.  For a whole-dollar hourly rate up to 10^9 and at most
    10,000 competitor events, the savings follow the levels too. *)
Theorem experience_orders_savings (h t d : Number) :
  leb (num 0) h = true -> leb (num 0) t = true -> leb (num 0) d = true ->
  let at_level := with_inputs h t d in
  isFinite (competitorTotal (at_level "junior")) = true ->
  (leb (competitorTotal (at_level "senior")) (competitorTotal (at_level "mixed")) = true /\
   leb (competitorTotal (at_level "mixed")) (competitorTotal (at_level "junior")) = true) /\
  (leb (inforceTotal (at_level "senior")) (inforceTotal (at_level "mixed")) = true /\
   leb (inforceTotal (at_level "mixed")) (inforceTotal (at_level "junior")) = true) /\
  (forall n : Z,
     h = of_Z n -> (n <= 10 ^ 9)%Z ->
     leb (competitorTurnoverEvents (at_level "junior")) (num 10000) = true ->
     leb (savings (at_level "senior")) (savings (at_level "mixed")) = true /\
     leb (savings (at_level "mixed")) (savings (at_level "junior")) = true).
Proof.
  intros Hh Ht Hd at_level F. subst at_level.
  destruct (finite_total_inputs h t d "junior" F)
    as (_ & h' & t' & d' & -> & -> & ->).
  destruct (level_orders_on_finite_inputs h' t' d') as (A & B & C);
    [now apply nonneg_of_leb .. |].
  split; [exact A|]. split; [exact B|]. intros n _ _ _. exact C.
Qed.

Lemma experience_orders_savings_witness :
  leb (num 0) (num 200) = true /\ leb (num 0) (num 12) = true /\
  leb (num 0) (num 18) = true /\
  isFinite (competitorTotal (with_inputs (num 200) (num 12) (num 18) "junior")) = true /\
  num 200 = of_Z 200 /\ (200 <= 10 ^ 9)%Z /\
  leb (competitorTurnoverEvents (with_inputs (num 200) (num 12) (num 18) "junior"))
      (num 10000) = true /\
  leb (savings (with_inputs (num 200) (num 12) (num 18) "senior"))
      (savings (with_inputs (num 200) (num 12) (num 18) "mixed")) = true.
Proof.
  assert (H1 : (200 <= 10 ^ 9)%Z) by lia.
  split; [reflexivity|]. split; [reflexivity|]. split; [reflexivity|].
  split; [reflexivity|]. split; [reflexivity|]. split; [exact H1|].
  split; [reflexivity|].
  exact (proj1 (proj2 (proj2
           (experience_orders_savings (num 200) (num 12) (num 18)
              eq_refl eq_refl eq_refl eq_refl)) 200%Z eq_refl H1 eq_refl)).
Defined.

(** X11: The two tables keyed by the level agree: experienceLevelLabel is one of
    the label strings exactly when rampUpDays is a number, that is for the
    levels junior, mixed and senior; for any other level both reads yield
    the same non-own value. *)
Theorem label_iff_timeline (h t d : Number) (level : string) :
  let this := with_inputs h t d level in
  ((exists s, LevelLabels.experienceLevelLabel this = LevelLabels.text s)
     <-> valid_level level) /\
  ((exists x, rampUpDays this = number x) <-> valid_level level) /\
  (~ valid_level level ->
     LevelLabels.experienceLevelLabel this = LevelLabels.not_own (rampUpDays this)).
Proof.
  intros this. subst this.
  assert (L : ~ valid_level level ->
              LevelLabels.experienceLevelLabel (with_inputs h t d level) =
              LevelLabels.not_own (rampUpDays (with_inputs h t d level))).
  { intros U. rewrite (rampUpDays_other h t d level U).
    unfold LevelLabels.experienceLevelLabel, LevelLabels.labels, Get.
    cbn [experienceLevel with_inputs list_to_map foldr fst snd uncurry].
    unfold valid_level in U.
    rewrite !lookup_insert_ne by (intros <-; tauto).
    now rewrite !lookup_empty. }
  assert (R : ~ valid_level level ->
              ~ exists x, rampUpDays (with_inputs h t d level) = number x).
  { intros U (x & E). rewrite (rampUpDays_other h t d level U) in E.
    destruct (Object_prototype !! level) as [v|] eqn:P; [|discriminate E].
    destruct (Object_prototype_builtin _ _ P) as (name & ->). discriminate E. }
  split; [|split; [|exact L]].
  - split.
    + intros (s & E). destruct (valid_level_dec level) as [V | U]; [exact V|].
      rewrite (L U) in E. discriminate E.
    + intros [-> | [-> | ->]]; eexists; reflexivity.
  - split.
    + intros X. destruct (valid_level_dec level) as [V | U]; [exact V|].
      now destruct (R U).
    + intros [-> | [-> | ->]]; eexists; reflexivity.
Qed.

Lemma label_iff_timeline_witness :
  ~ valid_level "valueOf" /\
  LevelLabels.experienceLevelLabel (with_inputs (num 200) (num 12) (num 18) "valueOf")
    = LevelLabels.not_own (builtin "Object.prototype.valueOf").
Proof.
  assert (U : ~ valid_level "valueOf") by (intros [X | [X | X]]; discriminate X).
  split; [exact U|].
  exact (proj2 (proj2 (label_iff_timeline (num 200) (num 12) (num 18) "valueOf")) U).
Defined.

End CalculatorProperties.

(** ** Further properties of the productivity curve *)

Module ChartProperties.
Import JS Chart Documented NumberFacts.
Local Open Scope js_scope.

Lemma ramp_Fin (q : Qc) (week : Z) :
  is_zero q = false ->
  ramp (Fin q) week =
    if Qle_bool (Q2Qc 100) ((Q2Qc (inject_Z week) - Q2Qc 3) / q * Q2Qc 100)%Qc
    then num 100
    else Fin ((Q2Qc (inject_Z week) - Q2Qc 3) / q * Q2Qc 100)%Qc.
Proof.
  intros Z. unfold ramp, of_Z, num. rewrite sub_Fin, (div_Fin _ _ Z), mul_Fin.
  reflexivity.
Qed.

Lemma ramp_Infinity (week : Z) : ramp (Infinity false) week = num 0.
Proof. unfold ramp, of_Z, num. cbn [sub add neg div mul]. apply Fin_eq. reflexivity. Qed.

Lemma ramp_term (q : Qc) (week : Z) :
  (((Q2Qc (inject_Z week) - Q2Qc 3) / q * Q2Qc 100)%Qc ==
   (inject_Z week - 3) * / q * 100)%Q.
Proof. to_Q. reflexivity. Qed.

Lemma positive_nonzero (q : Qc) : (0 < q)%Qc -> is_zero q = false.
Proof. intros H. apply is_zero_false. intros ->. discriminate H. Qed.

(** For a positive finite ramp the points from week 3 on lie between 0 and
    100 and do not decrease with the week. *)
Lemma ramp_Fin_bounds (q : Qc) (w w' : Z) :
  (0 < q)%Qc -> (3 <= w)%Z -> (w <= w')%Z ->
  leb (num 0) (ramp (Fin q) w) = true /\
  leb (ramp (Fin q) w) (num 100) = true /\
  leb (ramp (Fin q) w) (ramp (Fin q) w') = true.
Proof.
  intros Hq Hw Hww. assert (Hq' : (0 < q)%Q) by exact Hq.
  assert (Hi : (0 < / q)%Q) by now apply Qinv_lt_0_compat.
  assert (A : (0 <= inject_Z w - 3)%Q).
  { assert (X : (inject_Z 3 <= inject_Z w)%Q) by now rewrite <- Zle_Qle.
    change (inject_Z 3) with 3%Q in X. lra. }
  assert (B : (inject_Z w - 3 <= inject_Z w' - 3)%Q).
  { assert (inject_Z w <= inject_Z w')%Q by now rewrite <- Zle_Qle. lra. }
  assert (X0 : (0 <= (inject_Z w - 3) * / q)%Q)
    by (apply Qmult_le_0_compat; lra).
  assert (X1 : ((inject_Z w - 3) * / q <= (inject_Z w' - 3) * / q)%Q)
    by (apply Qmult_le_compat_r; lra).
  rewrite !(ramp_Fin q _ (positive_nonzero q Hq)).
  destruct (Qle_bool (Q2Qc 100) ((Q2Qc (inject_Z w) - Q2Qc 3) / q * Q2Qc 100)%Qc) eqn:Lw;
    destruct (Qle_bool (Q2Qc 100) ((Q2Qc (inject_Z w') - Q2Qc 3) / q * Q2Qc 100)%Qc) eqn:Lw'.
  - repeat split; reflexivity.
  - exfalso. apply Qle_bool_iff in Lw.
    assert (N : ~ (Q2Qc 100 <= ((Q2Qc (inject_Z w') - Q2Qc 3) / q * Q2Qc 100)%Qc)%Q)
      by (intros X; apply Qle_bool_iff in X; congruence).
    apply N. rewrite ramp_term in *. cbn [this Q2Qc] in *. 
    change (Qred 100) with 100%Q in *. lra.
  - assert (N : ~ (Q2Qc 100 <= ((Q2Qc (inject_Z w) - Q2Qc 3) / q * Q2Qc 100)%Qc)%Q)
      by (intros X; apply Qle_bool_iff in X; congruence).
    rewrite ramp_term in N. cbn [this Q2Qc] in N. change (Qred 100) with 100%Q in N.
    unfold num. repeat split; apply leb_Fin; unfold Qcle; rewrite ?ramp_term;
      cbn [this Q2Qc]; change (Qred 100) with 100%Q; change (Qred 0) with 0%Q; lra.
  - assert (N : ~ (Q2Qc 100 <= ((Q2Qc (inject_Z w) - Q2Qc 3) / q * Q2Qc 100)%Qc)%Q)
      by (intros X; apply Qle_bool_iff in X; congruence).
    rewrite ramp_term in N. cbn [this Q2Qc] in N. change (Qred 100) with 100%Q in N.
    unfold num. repeat split; apply leb_Fin; unfold Qcle; rewrite ?ramp_term;
      cbn [this Q2Qc]; change (Qred 100) with 100%Q; change (Qred 0) with 0%Q; lra.
Qed.

Lemma ramp_positive (r : Number) (w w' : Z) :
  ltb (num 0) r = true -> (3 <= w)%Z -> (w <= w')%Z ->
  leb (num 0) (ramp r w) = true /\
  leb (ramp r w) (num 100) = true /\
  leb (ramp r w) (ramp r w') = true.
Proof.
  intros Hr Hw Hww. destruct r as [|s|q].
  - discriminate Hr.
  - destruct s; [discriminate Hr|]. rewrite !ramp_Infinity. repeat split; reflexivity.
  - apply ramp_Fin_bounds; [now apply ltb_Fin | exact Hw | exact Hww].
Qed.

(** X12: For a positive rampUpWeeks every point of the curve is a number between
    0 and 100, the range of the y axis, and the curve never decreases from
    one week to the next. *)
Theorem curve_in_range_and_rising (rampUpWeeks : Number) :
  ltb (num 0) rampUpWeeks = true ->
  let curve : list Number := generateProductivityCurve rampUpWeeks in
  Forall (fun p => leb (num 0) p = true /\ leb p (num 100) = true) curve /\
  (forall (i : nat) (p p' : Number),
     curve !! i = Some p -> curve !! S i = Some p' -> leb p p' = true).
Proof.
  intros Hr curve. subst curve.
  rewrite ChartSpec.generateProductivityCurve_points.
  assert (R : forall w w' : Z, (3 <= w)%Z -> (w <= w')%Z ->
              leb (num 0) (ramp rampUpWeeks w) = true /\
              leb (ramp rampUpWeeks w) (num 100) = true /\
              leb (ramp rampUpWeeks w) (ramp rampUpWeeks w') = true)
    by (intros; now apply ramp_positive).
  split.
  - repeat (apply Forall_cons; split;
            [first [ split; reflexivity
                   | match goal with
                     | |- leb _ (ramp _ ?w) = true /\ _ =>
                         destruct (R w 12%Z) as (A & B & _);
                         [lia | lia | split; assumption]
                     end ] |]).
    now apply Forall_nil.
  - intros i p p' H1 H2.
    do 2 (destruct i as [|i];
          [cbn [lookup list_lookup] in H1, H2; injection H1 as <-; injection H2 as <-;
           reflexivity|]).
    destruct i as [|i];
      [cbn [lookup list_lookup] in H1, H2; injection H1 as <-; injection H2 as <-;
       apply (R 3%Z 3%Z); lia|].
    do 9 (destruct i as [|i];
          [cbn [lookup list_lookup] in H1, H2; injection H1 as <-; injection H2 as <-;
           apply R; lia|]).
    cbn [lookup list_lookup] in H2. destruct i; discriminate H2.
Qed.

Lemma curve_in_range_and_rising_witness :
  ltb (num 0) (num 12) = true /\
  Forall (fun p => leb (num 0) p = true /\ leb p (num 100) = true) juniorCurve.
Proof.
  split; [reflexivity|].
  exact (proj1 (curve_in_range_and_rising (num 12) eq_refl)).
Defined.

Lemma ramp_shorter_is_higher (q q' : Qc) (w : Z) :
  (0 < q)%Qc -> (q <= q')%Qc -> (3 <= w)%Z ->
  leb (ramp (Fin q') w) (ramp (Fin q) w) = true.
Proof.
  intros Hq Hqq Hw.
  assert (Hq1 : (0 < q)%Q) by exact Hq.
  assert (Hq2 : (q <= q')%Q) by exact Hqq.
  assert (Hq3 : (0 < q')%Q) by lra.
  assert (Hq' : (0 < q')%Qc) by exact Hq3.
  assert (A : (0 <= inject_Z w - 3)%Q).
  { assert (X : (inject_Z 3 <= inject_Z w)%Q) by now rewrite <- Zle_Qle.
    change (inject_Z 3) with 3%Q in X. lra. }
  assert (I : (/ q' <= / q)%Q).
  { apply Qle_shift_inv_l; [exact Hq1|].
    assert (E : (/ q' * q == q / q')%Q) by (field; lra). rewrite E.
    apply Qle_shift_div_r; lra. }
  assert (X : ((inject_Z w - 3) * / q' <= (inject_Z w - 3) * / q)%Q).
  { rewrite (Qmult_comm _ (/ q')), (Qmult_comm _ (/ q)).
    now apply Qmult_le_compat_r. }
  rewrite (ramp_Fin q w (positive_nonzero q Hq)),
    (ramp_Fin q' w (positive_nonzero q' Hq')).
  destruct (Qle_bool (Q2Qc 100) ((Q2Qc (inject_Z w) - Q2Qc 3) / q * Q2Qc 100)%Qc) eqn:L;
    destruct (Qle_bool (Q2Qc 100) ((Q2Qc (inject_Z w) - Q2Qc 3) / q' * Q2Qc 100)%Qc) eqn:L'.
  - reflexivity.
  - assert (N : ~ (Q2Qc 100 <= ((Q2Qc (inject_Z w) - Q2Qc 3) / q' * Q2Qc 100)%Qc)%Q)
      by (intros Y; apply Qle_bool_iff in Y; congruence).
    rewrite ramp_term in N. cbn [this Q2Qc] in N. change (Qred 100) with 100%Q in N.
    unfold num. apply leb_Fin. unfold Qcle. rewrite ramp_term. cbn [this Q2Qc].
    change (Qred 100) with 100%Q. lra.
  - exfalso. apply Qle_bool_iff in L'.
    assert (N : ~ (Q2Qc 100 <= ((Q2Qc (inject_Z w) - Q2Qc 3) / q * Q2Qc 100)%Qc)%Q)
      by (intros Y; apply Qle_bool_iff in Y; congruence).
    apply N. rewrite ramp_term in *. cbn [this Q2Qc] in *.
    change (Qred 100) with 100%Q in *. lra.
  - apply leb_Fin. unfold Qcle. rewrite !ramp_term. lra.
Qed.

(** X13: A shorter ramp-up is never below a longer one: for positive
    rampUpWeeks r <= r' each point of the curve of r is at least the point
    of the same week on the curve of r'. *)
Theorem shorter_ramp_dominates (r r' : Number) :
  ltb (num 0) r = true -> leb r r' = true ->
  forall (i : nat) (p p' : Number),
    generateProductivityCurve r !! i = Some p ->
    generateProductivityCurve r' !! i = Some p' ->
    leb p' p = true.
Proof.
  intros Hr Hrr.
  assert (R : forall w : Z, (3 <= w)%Z -> leb (ramp r' w) (ramp r w) = true).
  { intros w Hw. destruct r as [|s|q]; [discriminate Hr| |].
    - destruct s; [discriminate Hr|].
      destruct r' as [|s'|q']; [discriminate Hrr| |discriminate Hrr].
      destruct s'; [discriminate Hrr|]. rewrite !ramp_Infinity. reflexivity.
    - apply ltb_Fin in Hr. destruct r' as [|s'|q']; [discriminate Hrr| |].
      + destruct s'; [discriminate Hrr|]. rewrite ramp_Infinity.
        apply (ramp_Fin_bounds q w w Hr Hw). lia.
      + apply leb_Fin in Hrr. now apply ramp_shorter_is_higher. }
  intros i p p'. rewrite !ChartSpec.generateProductivityCurve_points. intros H1 H2.
  do 3 (destruct i as [|i];
        [cbn [lookup list_lookup] in H1, H2; injection H1 as <-; injection H2 as <-;
         reflexivity|]).
  do 10 (destruct i as [|i];
         [cbn [lookup list_lookup] in H1, H2; injection H1 as <-; injection H2 as <-;
          apply R; lia|]).
  cbn [lookup list_lookup] in H1. discriminate H1.
Qed.

Lemma shorter_ramp_dominates_witness :
  ltb (num 0) (num 6) = true /\ leb (num 6) (num 12) = true /\
  seniorCurve !! 7%nat = Some (ramp (num 6) 7) /\
  juniorCurve !! 7%nat = Some (ramp (num 12) 7) /\
  leb (ramp (num 12) 7) (ramp (num 6) 7) = true.
Proof.
  split; [reflexivity|]. split; [reflexivity|].
  split; [reflexivity|]. split; [reflexivity|].
  exact (shorter_ramp_dominates (num 6) (num 12) eq_refl eq_refl 7%nat _ _
           eq_refl eq_refl).
Defined.

Lemma ramp_Fin_is_number (q : Qc) (week : Z) :
  is_zero q = false -> isNaN (ramp (Fin q) week) = false.
Proof.
  intros Z. rewrite (ramp_Fin q week Z).
  now destruct (Qle_bool _ _).
Qed.

Lemma ramp_Infinity_is_number (s : bool) (week : Z) :
  isNaN (ramp (Infinity s) week) = false.
Proof.
  unfold ramp, of_Z, num. cbn [sub add neg div mul Math_min].
  now destruct (leb _ _).
Qed.

(** X14: The curve contains a NaN exactly when rampUpWeeks is 0 or NaN: the
    function does not check its argument, and week 3 then divides 0 by 0. *)
Theorem curve_has_NaN_iff (rampUpWeeks : Number) :
  Exists (fun p => isNaN p = true) (generateProductivityCurve rampUpWeeks) <->
  (isNaN rampUpWeeks = true \/ (rampUpWeeks === num 0) = true).
Proof.
  rewrite ChartSpec.generateProductivityCurve_points.
  rewrite !Exists_cons, Exists_nil.
  destruct rampUpWeeks as [|s|q].
  - split; [intros _; left; reflexivity|].
    intros _. do 3 right. left. reflexivity.
  - rewrite !ramp_Infinity_is_number. cbn [isNaN strict_equals num].
    split; [intros H | intros [H | H]; discriminate H].
    repeat (destruct H as [H | H]; [discriminate H|]). destruct H.
  - rewrite strict_equals_zero. cbn [isNaN]. destruct (is_zero q) eqn:Z.
    + split; [intros _; right; reflexivity|].
      intros _. do 3 right. left.
      apply is_zero_true in Z. subst q. reflexivity.
    + rewrite !(ramp_Fin_is_number q _ Z).
      split; [intros H | intros [H | H]; discriminate H].
      repeat (destruct H as [H | H]; [discriminate H|]). destruct H.
Qed.

Lemma curve_has_NaN_iff_witness :
  (num 0 === num 0) = true /\
  Exists (fun p => isNaN p = true) (generateProductivityCurve (num 0)).
Proof.
  split; [reflexivity|].
  apply (proj2 (curve_has_NaN_iff (num 0))). right. reflexivity.
Defined.

(** X15: For a negative finite rampUpWeeks every point after week 3 is strictly
    negative, below the y axis. *)
Theorem negative_ramp_plots_below_zero (q : Qc) (i : nat) (p : Number) :
  (q < 0)%Qc -> (4 <= i)%nat ->
  generateProductivityCurve (Fin q) !! i = Some p ->
  ltb p (num 0) = true.
Proof.
  intros Hq Hi. assert (Hq' : (q < 0)%Q) by exact Hq.
  assert (NZ : is_zero q = false).
  { apply is_zero_false. intros ->. discriminate Hq. }
  assert (I : (/ q < 0)%Q).
  { assert (X : (0 < / - q)%Q) by (apply Qinv_lt_0_compat; lra).
    assert (E : (/ - q == - / q)%Q) by (field; lra). rewrite E in X. lra. }
  assert (R : forall w : Z, (4 <= w)%Z -> ltb (ramp (Fin q) w) (num 0) = true).
  { intros w Hw. rewrite (ramp_Fin q w NZ).
    assert (A : (0 < inject_Z w - 3)%Q).
    { assert (X : (inject_Z 4 <= inject_Z w)%Q) by now rewrite <- Zle_Qle.
      change (inject_Z 4) with 4%Q in X. lra. }
    assert (N : ((inject_Z w - 3) * / q < 0)%Q).
    { assert (X : (0 < (inject_Z w - 3) * - / q)%Q)
        by (apply Qmult_lt_0_compat; lra).
      lra. }
    destruct (Qle_bool (Q2Qc 100) ((Q2Qc (inject_Z w) - Q2Qc 3) / q * Q2Qc 100)%Qc) eqn:L.
    - exfalso. apply Qle_bool_iff in L. rewrite ramp_term in L.
      cbn [this Q2Qc] in L. change (Qred 100) with 100%Q in L. lra.
    - unfold num. apply ltb_Fin. unfold Qclt. rewrite ramp_term.
      cbn [this Q2Qc]. change (Qred 0) with 0%Q. lra. }
  rewrite ChartSpec.generateProductivityCurve_points. intros H.
  do 4 (destruct i as [|i]; [lia|]).
  do 9 (destruct i as [|i];
        [cbn [lookup list_lookup] in H; injection H as <-; apply R; lia|]).
  cbn [lookup list_lookup] in H. discriminate H.
Qed.

Lemma negative_ramp_plots_below_zero_witness :
  (Q2Qc (-6) < 0)%Qc /\ (4 <= 12)%nat /\
  generateProductivityCurve (num (-6)) !! 12%nat = Some (num (-150)) /\
  ltb (num (-150)) (num 0) = true.
Proof.
  assert (H : (Q2Qc (-6) < 0)%Qc) by reflexivity.
  assert (I : (4 <= 12)%nat) by lia.
  assert (E : generateProductivityCurve (num (-6)) !! 12%nat = Some (num (-150)))
    by (vm_compute; f_equal; apply Fin_eq; reflexivity).
  split; [exact H|]. split; [exact I|]. split; [exact E|].
  exact (negative_ramp_plots_below_zero (Q2Qc (-6)) 12 (num (-150)) H I E).
Defined.

(** X17: Whatever the argument, the curve has one point per label of the x
    axis: index i holds a point exactly when the chart has a label i, and
    that label is the week number i. *)
Theorem curve_matches_labels (rampUpWeeks : Number) (i : nat) :
  (is_Some (generateProductivityCurve rampUpWeeks !! i) <->
   is_Some (ChartData.labels !! i)) /\
  (forall week : Number,
     ChartData.labels !! i = Some week -> week = of_Z (Z.of_nat i)).
Proof.
  split.
  - rewrite !lookup_lt_is_Some.
    rewrite ChartSpec.generateProductivityCurve_points. reflexivity.
  - intros week H. unfold ChartData.labels, ChartData.Array_from in H.
    rewrite list_lookup_fmap in H.
    destruct (seq 0 13 !! i) as [j|] eqn:E; [|discriminate H].
    apply lookup_seq in E as [-> _]. cbn in H. congruence.
Qed.

Lemma curve_matches_labels_witness :
  ChartData.labels !! 12%nat = Some (num 12) /\
  is_Some (generateProductivityCurve NaN !! 12%nat) /\
  num 12 = of_Z (Z.of_nat 12).
Proof.
  assert (L : ChartData.labels !! 12%nat = Some (num 12)) by reflexivity.
  split; [exact L|]. split.
  - apply (proj2 (proj1 (curve_matches_labels NaN 12))). rewrite L. now eexists.
  - exact (proj2 (curve_matches_labels NaN 12) (num 12) L).
Defined.

(** X16: For a positive finite rampUpWeeks the curve is at 100% exactly from
    week 3 + rampUpWeeks on: a point of week i >= 3 is 100 if and only if
    rampUpWeeks <= i - 3. *)
Theorem full_productivity_from (q : Qc) (i : nat) (p : Number) :
  (0 < q)%Qc -> (3 <= i)%nat ->
  generateProductivityCurve (Fin q) !! i = Some p ->
  (p = num 100 <-> (q <= inject_Z (Z.of_nat i) - 3)%Q).
Proof.
  intros Hq Hi. assert (Hq' : (0 < q)%Q) by exact Hq.
  assert (R : forall w : Z,
             ramp (Fin q) w = num 100 <-> (q <= inject_Z w - 3)%Q).
  { intros w. rewrite (ramp_Fin q w (positive_nonzero q Hq)).
    assert (T : (100 <= (inject_Z w - 3) * / q * 100 <-> q <= inject_Z w - 3)%Q).
    { split; intros X.
      - assert (Y : (1 <= (inject_Z w - 3) / q)%Q) by (unfold Qdiv; lra).
        assert (E : ((inject_Z w - 3) / q * q == inject_Z w - 3)%Q) by (field; lra).
        assert (F : (1 * q <= (inject_Z w - 3) / q * q)%Q)
          by (apply Qmult_le_compat_r; lra).
        lra.
      - assert (Y : (1 <= (inject_Z w - 3) / q)%Q)
          by (apply Qle_shift_div_l; lra).
        unfold Qdiv in Y. lra. }
    destruct (Qle_bool (Q2Qc 100) ((Q2Qc (inject_Z w) - Q2Qc 3) / q * Q2Qc 100)%Qc) eqn:L.
    - apply Qle_bool_iff in L. rewrite ramp_term in L. cbn [this Q2Qc] in L.
      change (Qred 100) with 100%Q in L. tauto.
    - assert (N : ~ (100 <= (inject_Z w - 3) * / q * 100)%Q).
      { intros X. rewrite <- ramp_term in X.
        assert (Y : Qle_bool (Q2Qc 100)
                      ((Q2Qc (inject_Z w) - Q2Qc 3) / q * Q2Qc 100)%Qc = true)
          by (apply Qle_bool_iff; exact X).
        congruence. }
      split; [|tauto]. intros E. exfalso. apply N.
      unfold num in E.
      assert (E' : ((Q2Qc (inject_Z w) - Q2Qc 3) / q * Q2Qc 100)%Qc = Q2Qc 100)
        by congruence.
      rewrite <- ramp_term, E'. cbn [this Q2Qc]. change (Qred 100) with 100%Q. lra. }
  rewrite ChartSpec.generateProductivityCurve_points. intros H.
  do 3 (destruct i as [|i]; [lia|]).
  do 10 (destruct i as [|i];
         [cbn [lookup list_lookup] in H; injection H as <-; apply R|]).
  cbn [lookup list_lookup] in H. discriminate H.
Qed.

Lemma full_productivity_from_witness :
  (0 < Q2Qc 6)%Qc /\ (3 <= 9)%nat /\
  seniorCurve !! 9%nat = Some (num 100) /\
  (Q2Qc 6 <= inject_Z (Z.of_nat 9) - 3)%Q.
Proof.
  assert (H : (0 < Q2Qc 6)%Qc) by reflexivity.
  assert (I : (3 <= 9)%nat) by lia.
  assert (E : generateProductivityCurve (Fin (Q2Qc 6)) !! 9%nat = Some (num 100))
    by (vm_compute; f_equal; apply Fin_eq; reflexivity).
  split; [exact H|]. split; [exact I|]. split; [exact E|].
  exact (proj1 (full_productivity_from (Q2Qc 6) 9 (num 100) H I E) eq_refl).
Defined.

End ChartProperties.
